(** * Negative-path cases of the benchmark session (bench/session/wrongapp.go)

    A shallow embedding of the seven fault-injection cases of
    [bench/session/wrongapp.go] together with the parts of the Go runtime
    they lean on: [crypto/rand], [fmt.Sprintf "%x"], the streaming
    [encoding/json] decoder and [defer].  Go strings and byte slices are
    modelled as [string] (a sequence of bytes), Go [int] as [Z].

    A case runs in a small monad over a state that holds the session, the
    package variable [ShareTargetURLs], what is left unread of the
    response body and the trace of what the case did; a computation ends
    in a value or in a panic.  The random source, the transport and
    request construction answer as an environment [Env] says.

    The encoding/json model covers the whole JSON grammar, the decoder's
    limit on nesting depth and the rules for storing an object into
    [resErr]. *)

From Stdlib Require Import String Ascii List ZArith NArith Bool Lia.
Import ListNotations.

Local Open Scope string_scope.
Set Warnings "-register-all".

(* ------------------------------------------------------------------ *)
(** ** Bytes *)

Module Bytes.

Definition code (c : ascii) : N := N_of_ascii c.

Definition byte (n : N) : ascii := ascii_of_N n.

Definition between (lo hi : N) (c : ascii) : bool :=
  ((lo <=? code c) && (code c <=? hi))%N.

Definition is_digit (c : ascii) : bool := between 48 57 c.

Definition is_digit19 (c : ascii) : bool := between 49 57 c.

Definition is_hex (c : ascii) : bool :=
  is_digit c || between 97 102 c || between 65 70 c.

(** JSON white space: space, tab, carriage return, line feed. *)
Definition is_space (c : ascii) : bool :=
  match code c with
  | 32%N | 9%N | 13%N | 10%N => true
  | _ => false
  end.

Definition hex_val (c : ascii) : N :=
  if is_digit c then code c - 48
  else if between 97 102 c then code c - 87
  else code c - 55.

(** One lowercase hexadecimal digit, as [%x] prints it. *)
Definition hex_digit (n : N) : ascii :=
  if (n <? 10)%N then byte (48 + n) else byte (87 + n).

(** ASCII lower-casing of one byte. *)
Definition lower (c : ascii) : ascii :=
  if between 65 90 c then byte (code c + 32) else c.

Fixpoint skip_ws (s : string) : string :=
  match s with
  | String c r => if is_space c then skip_ws r else s
  | EmptyString => s
  end.

Fixpoint drop (n : nat) (s : string) : string :=
  match n, s with
  | S k, String _ r => drop k r
  | _, _ => s
  end.

End Bytes.

(* ------------------------------------------------------------------ *)
(** ** fmt.Sprintf("%x", k) on a byte slice *)

Fixpoint hex_encode (k : string) : string :=
  match k with
  | EmptyString => EmptyString
  | String c r =>
      String (Bytes.hex_digit (Bytes.code c / 16))
        (String (Bytes.hex_digit (Bytes.code c mod 16)) (hex_encode r))
  end.

(* ------------------------------------------------------------------ *)
(** ** UTF-8, as [unicode/utf8] encodes and validates it *)

Module Utf8.

Import Bytes.

Definition RuneError : N := 65533.

Definition is_surrogate (r : N) : bool := ((55296 <=? r) && (r <? 57344))%N.

Definition EncodeRune (r : N) : string :=
  let r := if is_surrogate r || (1114111 <? r)%N then RuneError else r in
  if (r <? 128)%N then String (byte r) ""
  else if (r <? 2048)%N then
    String (byte (192 + r / 64)) (String (byte (128 + r mod 64)) "")
  else if (r <? 65536)%N then
    String (byte (224 + r / 4096))
      (String (byte (128 + (r / 64) mod 64))
         (String (byte (128 + r mod 64)) ""))
  else
    String (byte (240 + r / 262144))
      (String (byte (128 + (r / 4096) mod 64))
         (String (byte (128 + (r / 64) mod 64))
            (String (byte (128 + r mod 64)) ""))).

Definition cont (c : ascii) : bool := between 128 191 c.

(** Length in bytes of the well-formed multi-byte sequence [s] starts
    with, [0] when the first byte does not start one ([DecodeRune] then
    yields [RuneError] of width 1). *)
Definition seq_len (s : string) : nat :=
  match s with
  | String c0 (String c1 r1) =>
      if between 194 223 c0 then (if cont c1 then 2 else 0)%nat
      else
        match r1 with
        | String c2 r2 =>
            let second3 :=
              if (code c0 =? 224)%N then between 160 191 c1
              else if (code c0 =? 237)%N then between 128 159 c1
              else cont c1 in
            if between 224 239 c0 then
              (if second3 && cont c2 then 3 else 0)%nat
            else
              match r2 with
              | String c3 _ =>
                  let second4 :=
                    if (code c0 =? 240)%N then between 144 191 c1
                    else if (code c0 =? 244)%N then between 128 143 c1
                    else cont c1 in
                  if between 240 244 c0 && second4 && cont c2 && cont c3
                  then 4%nat else 0%nat
              | EmptyString => 0%nat
              end
        | EmptyString => 0%nat
        end
  | _ => 0%nat
  end.

End Utf8.

(* ------------------------------------------------------------------ *)
(** ** encoding/json: values, scanner, unquoting *)

Module Json.

Import Bytes.

Inductive value : Type :=
| Null
| Bool (b : bool)
| Number (lit : string)
| Str (s : string)
| Array (vs : list value)
| Object (kvs : list (string * value)).

(** Result of scanning a prefix of the input: the item and what follows
    it, a request for more input, or a syntax error. *)
Inductive scan (A : Type) : Type :=
| Done (a : A) (rest : string)
| More
| Bad.
Arguments Done {A} a rest.
Arguments More {A}.
Arguments Bad {A}.

Definition scan_map {A B} (f : A -> B) (r : scan A) : scan B :=
  match r with
  | Done a rest => Done (f a) rest
  | More => More
  | Bad => Bad
  end.

Fixpoint digits (s : string) : string * string :=
  match s with
  | String c r =>
      if is_digit c then let (d, t) := digits r in (String c d, t)
      else (EmptyString, s)
  | EmptyString => (EmptyString, EmptyString)
  end.

(** A run of at least one digit; at the end of the input a longer run
    may still follow only if nothing was read yet. *)
Definition digits1 (s : string) : scan string :=
  match digits s with
  | (EmptyString, EmptyString) => More
  | (EmptyString, _) => Bad
  | (d, t) => Done d t
  end.

Definition scan_exp (s : string) : scan string :=
  match s with
  | String c r =>
      if (code c =? 101)%N || (code c =? 69)%N then
        match r with
        | String g r' =>
            if (code g =? 43)%N || (code g =? 45)%N
            then scan_map (fun d => String c (String g d)) (digits1 r')
            else scan_map (String c) (digits1 r)
        | EmptyString => More
        end
      else Done EmptyString s
  | EmptyString => Done EmptyString s
  end.

Definition scan_frac (s : string) : scan string :=
  match s with
  | String c r =>
      if (code c =? 46)%N then scan_map (String c) (digits1 r)
      else Done EmptyString s
  | EmptyString => Done EmptyString s
  end.

Definition scan_int (s : string) : scan string :=
  match s with
  | String c r =>
      if (code c =? 48)%N then Done (String c EmptyString) r
      else if is_digit19 c then
        let (d, t) := digits r in Done (String c d) t
      else Bad
  | EmptyString => More
  end.

Definition scan_seq (p q : string -> scan string) (s : string) : scan string :=
  match p s with
  | Done a t => scan_map (append a) (q t)
  | More => More
  | Bad => Bad
  end.

(** A number literal: [-? int frac? exp?]. *)
Definition scan_number (s : string) : scan string :=
  match s with
  | String c r =>
      if (code c =? 45)%N
      then scan_map (String c) (scan_seq scan_int (scan_seq scan_frac scan_exp) r)
      else scan_seq scan_int (scan_seq scan_frac scan_exp) s
  | EmptyString => More
  end.

(** The rest of a keyword ([rue], [alse], [ull]) after its first byte. *)
Fixpoint scan_word (w s : string) : scan unit :=
  match w, s with
  | EmptyString, _ => Done tt s
  | String _ _, EmptyString => More
  | String a w', String c r =>
      if (code a =? code c)%N then scan_word w' r else Bad
  end.

Definition is_simple_escape (e : ascii) : bool :=
  match code e with
  | 34%N | 92%N | 47%N | 98%N | 102%N | 110%N | 114%N | 116%N => true
  | _ => false
  end.

(** The bytes of a string literal after its opening quote, up to the
    closing quote, escapes still in place but checked. *)
Fixpoint scan_string (s : string) : scan string :=
  match s with
  | EmptyString => More
  | String c r =>
      if (code c =? 34)%N then Done EmptyString r
      else if (code c =? 92)%N then
        match r with
        | EmptyString => More
        | String e r1 =>
            if is_simple_escape e
            then scan_map (fun t => String c (String e t)) (scan_string r1)
            else if (code e =? 117)%N then
              match r1 with
              | EmptyString => More
              | String h1 EmptyString =>
                  if is_hex h1 then More else Bad
              | String h1 (String h2 EmptyString) =>
                  if is_hex h1 && is_hex h2 then More else Bad
              | String h1 (String h2 (String h3 EmptyString)) =>
                  if is_hex h1 && is_hex h2 && is_hex h3 then More else Bad
              | String h1 (String h2 (String h3 (String h4 r2))) =>
                  if is_hex h1 && is_hex h2 && is_hex h3 && is_hex h4
                  then scan_map
                         (fun t => String c (String e (String h1 (String h2
                                     (String h3 (String h4 t))))))
                         (scan_string r2)
                  else Bad
              end
            else Bad
        end
      else if (code c <? 32)%N then Bad
      else scan_map (String c) (scan_string r)
  end.

(** [getu4]: the code unit written [\uXXXX] at the start of [s]. *)
Definition getu4 (s : string) : option N :=
  match s with
  | String b (String u (String h1 (String h2 (String h3 (String h4 _))))) =>
      if (code b =? 92)%N && (code u =? 117)%N
         && is_hex h1 && is_hex h2 && is_hex h3 && is_hex h4
      then Some (hex_val h1 * 4096 + hex_val h2 * 256
                 + hex_val h3 * 16 + hex_val h4)%N
      else None
  | _ => None
  end.

Definition unescape (e : ascii) : ascii :=
  match code e with
  | 98%N => byte 8
  | 102%N => byte 12
  | 110%N => byte 10
  | 114%N => byte 13
  | 116%N => byte 9
  | _ => e
  end.

(** utf16.DecodeRune on a surrogate pair. *)
Definition utf16_pair (r1 r2 : N) : option N :=
  if ((55296 <=? r1) && (r1 <? 56320) && (56320 <=? r2) && (r2 <? 57344))%N
  then Some ((r1 - 55296) * 1024 + (r2 - 56320) + 65536)%N
  else None.

Inductive mode : Type :=
| Idle
| Copy (n : nat)
| Skip (n : nat).

(** [unquote] on the bytes between the quotes: escapes are decoded,
    [\u] escapes are written as UTF-8 (a surrogate pair as one rune, a
    lone surrogate as U+FFFD), bytes that are not well-formed UTF-8 are
    replaced by U+FFFD. *)
Fixpoint unquote_from (m : mode) (s : string) : string :=
  match s with
  | EmptyString => EmptyString
  | String c r =>
      match m with
      | Skip (S k) => unquote_from (Skip k) r
      | Copy (S k) => String c (unquote_from (Copy k) r)
      | _ =>
          if (code c =? 92)%N then
            match r with
            | EmptyString => EmptyString
            | String e _ =>
                if (code e =? 117)%N then
                  match getu4 s with
                  | None => EmptyString
                  | Some rr =>
                      if Utf8.is_surrogate rr then
                        match getu4 (drop 6 s) with
                        | Some rr1 =>
                            match utf16_pair rr rr1 with
                            | Some dec =>
                                append (Utf8.EncodeRune dec)
                                  (unquote_from (Skip 11) r)
                            | None =>
                                append (Utf8.EncodeRune Utf8.RuneError)
                                  (unquote_from (Skip 5) r)
                            end
                        | None =>
                            append (Utf8.EncodeRune Utf8.RuneError)
                              (unquote_from (Skip 5) r)
                        end
                      else append (Utf8.EncodeRune rr) (unquote_from (Skip 5) r)
                  end
                else String (unescape e) (unquote_from (Skip 1) r)
            end
          else if (code c <? 128)%N then String c (unquote_from Idle r)
          else
            match Utf8.seq_len s with
            | O => append (Utf8.EncodeRune Utf8.RuneError) (unquote_from Idle r)
            | S k => String c (unquote_from (Copy k) r)
            end
      end
  end.

Definition unquote (raw : string) : string := unquote_from Idle raw.

(** The scanner's [maxNestingDepth]: opening an object or an array
    inside that many others is an error ("exceeded max depth"). *)
Definition maxNestingDepth : N := 10000.

(** Recursive descent over the grammar.  Every call that descends takes
    one unit of [fuel] and at least one byte of input, so a fuel above
    the length of the input is never used up (see
    [parse_value_fuel]).  [depth] counts the objects and arrays that are
    open around the value. *)
Inductive fueled (A : Type) : Type :=
| Parsed (r : scan A)
| OutOfFuel.
Arguments Parsed {A} r.
Arguments OutOfFuel {A}.

Fixpoint parse_value (fuel : nat) (depth : N) (s : string)
  : fueled value :=
  match fuel with
  | O => OutOfFuel
  | S f =>
      match skip_ws s with
      | EmptyString => Parsed More
      | String c r =>
          if (code c =? 123)%N then
            if (maxNestingDepth <=? depth)%N then Parsed Bad
            else
              match skip_ws r with
              | EmptyString => Parsed More
              | String d r' =>
                  if (code d =? 125)%N then Parsed (Done (Object []) r')
                  else parse_members f (depth + 1)%N [] (skip_ws r)
              end
          else if (code c =? 91)%N then
            if (maxNestingDepth <=? depth)%N then Parsed Bad
            else
              match skip_ws r with
              | EmptyString => Parsed More
              | String d r' =>
                  if (code d =? 93)%N then Parsed (Done (Array []) r')
                  else parse_elements f (depth + 1)%N [] (skip_ws r)
              end
          else if (code c =? 34)%N then
            Parsed (scan_map (fun raw => Str (unquote raw)) (scan_string r))
          else if (code c =? 45)%N || is_digit c then
            Parsed (scan_map Number (scan_number (String c r)))
          else if (code c =? 116)%N then
            Parsed (scan_map (fun _ => Bool true) (scan_word "rue" r))
          else if (code c =? 102)%N then
            Parsed (scan_map (fun _ => Bool false) (scan_word "alse" r))
          else if (code c =? 110)%N then
            Parsed (scan_map (fun _ => Null) (scan_word "ull" r))
          else Parsed Bad
      end
  end

(** Members of an object, the input standing at a key. *)
with parse_members (fuel : nat) (depth : N) (acc : list (string * value))
  (s : string)
    : fueled value :=
  match fuel with
  | O => OutOfFuel
  | S f =>
      match s with
      | EmptyString => Parsed More
      | String q r =>
          if (code q =? 34)%N then
            match scan_string r with
            | More => Parsed More
            | Bad => Parsed Bad
            | Done raw t =>
                match skip_ws t with
                | EmptyString => Parsed More
                | String col t' =>
                    if (code col =? 58)%N then
                      match parse_value f depth t' with
                      | OutOfFuel => OutOfFuel
                      | Parsed More => Parsed More
                      | Parsed Bad => Parsed Bad
                      | Parsed (Done v u) =>
                          let acc' := (acc ++ [(unquote raw, v)])%list in
                          match skip_ws u with
                          | EmptyString => Parsed More
                          | String e u' =>
                              if (code e =? 125)%N
                              then Parsed (Done (Object acc') u')
                              else if (code e =? 44)%N
                              then parse_members f depth acc' (skip_ws u')
                              else Parsed Bad
                          end
                      end
                    else Parsed Bad
                end
            end
          else Parsed Bad
      end
  end

(** Elements of an array, the input standing at a value. *)
with parse_elements (fuel : nat) (depth : N) (acc : list value) (s : string)
    : fueled value :=
  match fuel with
  | O => OutOfFuel
  | S f =>
      match parse_value f depth s with
      | OutOfFuel => OutOfFuel
      | Parsed More => Parsed More
      | Parsed Bad => Parsed Bad
      | Parsed (Done v u) =>
          let acc' := (acc ++ [v])%list in
          match skip_ws u with
          | EmptyString => Parsed More
          | String e u' =>
              if (code e =? 93)%N then Parsed (Done (Array acc') u')
              else if (code e =? 44)%N then parse_elements f depth acc' u'
              else Parsed Bad
          end
      end
  end.

Definition is_container (v : value) : bool :=
  match v with
  | Array _ | Object _ => true
  | _ => false
  end.

(** A scan that leaves no more input than it was given. *)
Definition shrinks {A : Type} (r : scan A) (s : string) : Prop :=
  match r with
  | Done _ t => String.length t <= String.length s
  | _ => True
  end.

(** A parse that had fuel enough and left no more input than it was
    given. *)
Definition settled (r : fueled value) (s : string) : Prop :=
  match r with
  | OutOfFuel => False
  | Parsed q => shrinks q s
  end.

End Json.

(* ------------------------------------------------------------------ *)
(** ** Go values the cases handle *)

(** Go [error] values the cases can meet.  [External] stands for an error
    produced outside this file (random source, request construction,
    transport). *)
Inductive goError : Type :=
| External (what : string)
| StatusCodeError (actual expected : Z)
| SyntaxError
| ErrUnexpectedEOF
| EOF
| UnmarshalTypeError (kind : string).

Definition ItemMinPrice : Z := 100.
Definition ItemMaxPrice : Z := 1000000.
Definition ItemPriceErrMsg : string :=
  "商品価格は100円以上、1,000,000円以下にしてください".

Record resErr : Type := mkResErr { Error : string }.

(** Modelled from the spec: the request types [reqLogin], [reqSell],
    [reqBuy] and [reqShip], declared outside wrongapp.go.  Section 6
    lists their field sets; the field names are those of the struct
    literals in wrongapp.go.  Their JSON tags are not known here, so the
    encoding is left to the world ([json_Marshal] below). *)
Record reqLogin : Type := mkReqLogin
  { login_AccountName : string; login_Password : string }.

Record reqSell : Type := mkReqSell
  { sell_CSRFToken : string; sell_Name : string; sell_Price : Z;
    sell_Description : string; sell_CategoryID : Z }.

Record reqBuy : Type := mkReqBuy
  { buy_CSRFToken : string; buy_ItemID : Z; buy_Token : string }.

Record reqShip : Type := mkReqShip
  { ship_CSRFToken : string; ship_ItemID : Z }.

Inductive payload : Type :=
| PLogin (r : reqLogin)
| PSell (r : reqSell)
| PBuy (r : reqBuy)
| PShip (r : reqShip).

(** Modelled from the spec: [Session], declared outside wrongapp.go.
    Section 3 has it carry the currently valid anti-forgery token, which
    wrongapp.go reads as [s.csrfToken], and the base target URL, which
    wrongapp.go takes from the package variable [ShareTargetURLs]
    instead. *)
Record Session : Type := mkSession { csrfToken : string }.

(** Modelled from the spec: the package variable [ShareTargetURLs],
    declared outside wrongapp.go, of which the cases read [AppURL]. *)
Record TargetURLs : Type := mkTargetURLs { AppURL : string }.

(** What [s.newPostRequest] hands to [s.Do]. *)
Record Request : Type := mkRequest
  { req_Method : string; req_URL : string; req_Path : string;
    req_ContentType : string; req_Body : string }.

(** A response: its status code and the body as the successive [Read]
    calls on it deliver it. *)
Record Response : Type := mkResponse
  { StatusCode : Z; Body : list string }.

(** Modelled from the spec: the value [fails.NewError err msg] builds,
    declared outside wrongapp.go.  Section 3: a structured failure
    carrying the underlying cause and a diagnostic string. *)
Record failure : Type := mkFailure
  { cause : option goError; message : string }.

(* ------------------------------------------------------------------ *)
(** ** json.Decoder.Decode into a [resErr] *)

Module Decoder.

Import Bytes Json.

Definition fuel_for (buf : string) : nat := 2 * String.length buf + 2.

(** What the buffered input already decides, before any further read:
    a complete value, a syntax error, or nothing yet.  A top-level
    scalar is complete only once a byte follows it.  The fuel is never
    used up ([JsonFacts.parse_value_fuel]). *)
Definition ready (buf : string) : option (value + goError) :=
  match parse_value (fuel_for buf) 0 buf with
  | Parsed (Done v rest) =>
      match rest with
      | EmptyString => if is_container v then Some (inl v) else None
      | String _ _ => Some (inl v)
      end
  | Parsed More => None
  | Parsed Bad => Some (inr SyntaxError)
  | OutOfFuel => Some (inr SyntaxError)
  end.

(** What the buffered input amounts to once the reader reports EOF. *)
Definition at_eof (buf : string) : value + goError :=
  match parse_value (fuel_for buf) 0 buf with
  | Parsed (Done v _) => inl v
  | Parsed More =>
      match skip_ws buf with
      | EmptyString => inr EOF
      | String _ _ => inr ErrUnexpectedEOF
      end
  | Parsed Bad => inr SyntaxError
  | OutOfFuel => inr SyntaxError
  end.

(** [readValue]: scan what is buffered, refill from the reader while
    the value is incomplete.  Returns the chunks left unread. *)
Fixpoint readValue (buf : string) (unread : list string)
  : (value + goError) * list string :=
  match ready buf with
  | Some r => (r, unread)
  | None =>
      match unread with
      | [] => (at_eof buf, [])
      | c :: cs => readValue (buf ++ c) cs
      end
  end.

Fixpoint lower_all (s : string) : string :=
  match s with
  | EmptyString => EmptyString
  | String c r => String (lower c) (lower_all r)
  end.

(** A key selects the field tagged [name] when it equals the tag, case
    of ASCII letters aside. *)
Definition key_matches (name key : string) : bool :=
  String.eqb (lower_all key) (lower_all name).

Definition kind_of (v : value) : string :=
  match v with
  | Null => "null"
  | Bool _ => "bool"
  | Number _ => "number"
  | Str _ => "string"
  | Array _ => "array"
  | Object _ => "object"
  end.

Definition first_error (saved : option goError) (e : goError) : option goError :=
  match saved with
  | Some _ => saved
  | None => Some e
  end.

(** One member of the object stored into the struct: a string is set,
    [null] leaves the field alone, any other value is a type error that
    is saved while decoding goes on. *)
Definition store_member (acc : resErr * option goError) (kv : string * value)
  : resErr * option goError :=
  let (re, saved) := acc in
  if key_matches "error" (fst kv) then
    match snd kv with
    | Str s => (mkResErr s, saved)
    | Null => (re, saved)
    | v => (re, first_error saved (UnmarshalTypeError (kind_of v)))
    end
  else (re, saved).

Definition unmarshal (v : value) (re : resErr) : resErr * option goError :=
  match v with
  | Null => (re, None)
  | Object kvs => fold_left store_member kvs (re, None)
  | _ => (re, Some (UnmarshalTypeError (kind_of v)))
  end.

(** [json.NewDecoder(body).Decode(&re)] on a body still holding
    [unread]: the struct after the call, the error, the chunks left. *)
Definition Decode (unread : list string) (re : resErr)
  : resErr * option goError * list string :=
  match readValue EmptyString unread with
  | (inl v, rest) => (unmarshal v re, rest)
  | (inr e, rest) => (re, Some e, rest)
  end.

End Decoder.

(* ------------------------------------------------------------------ *)
(** ** The world the cases run in *)

(** What a run leaves behind that a caller could observe. *)
Inductive event : Type :=
| EvRandRead (n : nat) (ok : bool)
| EvMarshal (p : payload)
| EvNewRequest (path : string) (ok : bool)
| EvDo (req : Request) (res : Response + goError)
| EvDecode
| EvClose.

(** Everything outside the package: the random source (one answer per
    call, either an error or a supply of bytes), the JSON encoding of the
    payloads, request construction, the transport, and the wording of the
    status diagnostic. *)
Record Env : Type := mkEnv
  { rand_source : nat -> (nat -> ascii) + goError;
    json_Marshal : payload -> string;
    new_request_error : string -> string -> option goError;
    round_trip : Session -> Request -> Response + goError;
    status_diag : Z -> Z -> string }.

Record State : Type := mkState
  { st_session : Session;
    st_urls : TargetURLs;
    st_rand_calls : nat;
    st_unread : list string;
    st_trace : list event }.

Definition start (s : Session) (u : TargetURLs) : State :=
  mkState s u 0 [] [].

Definition emit (ev : event) (st : State) : State :=
  mkState (st_session st) (st_urls st) (st_rand_calls st) (st_unread st)
    (st_trace st ++ [ev])%list.

Definition set_unread (b : list string) (st : State) : State :=
  mkState (st_session st) (st_urls st) (st_rand_calls st) b (st_trace st).

Definition tick_rand (st : State) : State :=
  mkState (st_session st) (st_urls st) (S (st_rand_calls st)) (st_unread st)
    (st_trace st).

(** A computation either yields a value or panics. *)
Inductive result (A : Type) : Type :=
| Val (a : A)
| Panic (e : goError).
Arguments Val {A} a.
Arguments Panic {A} e.

Definition M (A : Type) : Type := Env -> State -> result A * State.

Definition ret {A} (a : A) : M A := fun _ st => (Val a, st).

Definition bind {A B} (m : M A) (k : A -> M B) : M B :=
  fun E st =>
    match m E st with
    | (Val a, st') => k a E st'
    | (Panic e, st') => (Panic e, st')
    end.

Definition panic {A} (e : goError) : M A := fun _ st => (Panic e, st).

Notation "x <- m ;; k" := (bind m (fun x => k))
  (at level 61, m at next level, right associativity).
Notation "' p <- m ;; k" := (bind m (fun x => match x with p => k end))
  (at level 61, p pattern, m at next level, right associativity).

(** [defer d] followed by the rest of the function body: [d] runs when
    the body is left, whichever way. *)
Definition defer {A} (d : M unit) (body : M A) : M A :=
  fun E st =>
    let (r, st1) := body E st in
    let (_, st2) := d E st1 in
    (r, st2).

(** Reading a field of the receiver [s] and the package variable
    [ShareTargetURLs]. *)
Definition s_csrfToken : M string :=
  fun _ st => (Val (csrfToken (st_session st)), st).

Definition ShareTargetURLs : M TargetURLs :=
  fun _ st => (Val (st_urls st), st).

Fixpoint take_bytes (f : nat -> ascii) (i n : nat) : string :=
  match n with
  | O => EmptyString
  | S m => String (f i) (take_bytes f (S i) m)
  end.

(** [crand.Read(k)] on a fresh slice of [b] bytes. *)
Definition crand_Read (b : nat) : M (string + goError) :=
  fun E st =>
    match rand_source E (st_rand_calls st) with
    | inl f => (Val (inl (take_bytes f 0 b)), emit (EvRandRead b true) (tick_rand st))
    | inr e => (Val (inr e), emit (EvRandRead b false) (tick_rand st))
    end.

Definition json_Marshal_ (p : payload) : M string :=
  fun E st => (Val (json_Marshal E p), emit (EvMarshal p) st).

(** Modelled from the spec: [s.newPostRequest], declared outside
    wrongapp.go.  Section 4.2 has every case POST a JSON body to a fixed
    path; section 7 lets request construction fail. *)
Definition newPostRequest (u : string) (spath contentType body : string)
  : M (Request + goError) :=
  fun E st =>
    match new_request_error E u spath with
    | Some e => (Val (inr e), emit (EvNewRequest spath false) st)
    | None =>
        (Val (inl (mkRequest "POST" u spath contentType body)),
         emit (EvNewRequest spath true) st)
    end.

(** Modelled from the spec: [s.Do], declared outside wrongapp.go.
    Section 4.2: the request goes in, a status code with a readable body
    or a transport failure comes out. *)
Definition Do (req : Request) : M (Response + goError) :=
  fun E st =>
    let r := round_trip E (st_session st) req in
    match r with
    | inl res => (Val r, emit (EvDo req r) (set_unread (Body res) st))
    | inr _ => (Val r, emit (EvDo req r) st)
    end.

(** Modelled from the spec: [checkStatusCode], declared outside
    wrongapp.go.  Section 4.3: compares the actual status with the
    expected one and on a mismatch returns a failure with a diagnostic
    string, without decoding. *)
Definition checkStatusCode (res : Response) (expectedStatusCode : Z)
  : M (string * option goError) :=
  fun E st =>
    if (StatusCode res =? expectedStatusCode)%Z
    then (Val (EmptyString, None), st)
    else (Val (status_diag E (StatusCode res) expectedStatusCode,
               Some (StatusCodeError (StatusCode res) expectedStatusCode)), st).

(** Modelled from the spec: [fails.NewError], declared outside
    wrongapp.go.  Section 3: a structured failure carrying the underlying
    cause and a diagnostic string; a failure is built whether or not the
    cause is nil. *)
Definition fails_NewError (err : option goError) (msg : string) : option failure :=
  Some (mkFailure err msg).

Definition Body_Close : M unit :=
  fun _ st => (Val tt, emit EvClose st).

(** [json.NewDecoder(res.Body).Decode(&re)]. *)
Definition json_Decode (re : resErr) : M (resErr * option goError) :=
  fun _ st =>
    match Decoder.Decode (st_unread st) re with
    | (re', err, rest) => (Val (re', err), emit EvDecode (set_unread rest st))
    end.

Definition http_StatusBadRequest : Z := 400.
Definition http_StatusUnauthorized : Z := 401.
Definition http_StatusForbidden : Z := 403.
Definition http_StatusUnprocessableEntity : Z := 422.

(* ------------------------------------------------------------------ *)
(** ** wrongapp.go *)

Definition secureRandomStr (b : nat) : M string :=
  r <- crand_Read b ;;
  match r with
  | inr err => panic err
  | inl k => ret (hex_encode k)
  end.

Definition LoginWithWrongPassword (accountName password : string)
  : M (option failure) :=
  b <- json_Marshal_ (PLogin (mkReqLogin accountName password)) ;;
  urls <- ShareTargetURLs ;;
  r <- newPostRequest (AppURL urls) "/login" "application/json" b ;;
  match r with
  | inr err => ret (fails_NewError (Some err) "POST /login: リクエストに失敗しました")
  | inl req =>
      r <- Do req ;;
      match r with
      | inr err => ret (fails_NewError (Some err) "POST /login: リクエストに失敗しました")
      | inl res =>
          defer Body_Close
            ('(msg, err) <- checkStatusCode res http_StatusUnauthorized ;;
             match err with
             | Some e => ret (fails_NewError err ("POST /login: " ++ msg))
             | None =>
                 '(re, err) <- json_Decode (mkResErr "") ;;
                 match err with
                 | Some e =>
                     ret (fails_NewError err "POST /login: JSONデコードに失敗しました")
                 | None => ret None
                 end
             end)
      end
  end.

Definition SellWithWrongCSRFToken (name : string) (price : Z)
  (description : string) (categoryID : Z) : M (option failure) :=
  tok <- secureRandomStr 20 ;;
  b <- json_Marshal_ (PSell (mkReqSell tok name price description categoryID)) ;;
  urls <- ShareTargetURLs ;;
  r <- newPostRequest (AppURL urls) "/sell" "application/json" b ;;
  match r with
  | inr err => ret (fails_NewError (Some err) "POST /sell: リクエストに失敗しました")
  | inl req =>
      r <- Do req ;;
      match r with
      | inr err => ret (fails_NewError (Some err) "POST /sell: リクエストに失敗しました")
      | inl res =>
          defer Body_Close
            ('(msg, err) <- checkStatusCode res http_StatusUnprocessableEntity ;;
             match err with
             | Some e => ret (fails_NewError err ("POST /sell: " ++ msg))
             | None =>
                 '(re, err) <- json_Decode (mkResErr "") ;;
                 match err with
                 | Some e =>
                     ret (fails_NewError err "POST /sell: JSONデコードに失敗しました")
                 | None => ret None
                 end
             end)
      end
  end.

Definition SellWithWrongPrice (name : string) (price : Z)
  (description : string) (categoryID : Z) : M (option failure) :=
  tok <- s_csrfToken ;;
  b <- json_Marshal_ (PSell (mkReqSell tok name price description categoryID)) ;;
  urls <- ShareTargetURLs ;;
  r <- newPostRequest (AppURL urls) "/sell" "application/json" b ;;
  match r with
  | inr err => ret (fails_NewError (Some err) "POST /sell: リクエストに失敗しました")
  | inl req =>
      r <- Do req ;;
      match r with
      | inr err => ret (fails_NewError (Some err) "POST /sell: リクエストに失敗しました")
      | inl res =>
          defer Body_Close
            ('(msg, err) <- checkStatusCode res http_StatusBadRequest ;;
             match err with
             | Some e => ret (fails_NewError err ("POST /sell: " ++ msg))
             | None =>
                 '(re, err) <- json_Decode (mkResErr "") ;;
                 match err with
                 | Some e =>
                     ret (fails_NewError err "POST /sell: JSONデコードに失敗しました")
                 | None =>
                     if negb (String.eqb (Error re) ItemPriceErrMsg)
                     then ret (fails_NewError err
                                 "POST /sell: 商品価格は100円以上、1,000,000円以下しか出品できません")
                     else ret None
                 end
             end)
      end
  end.

Definition BuyWithWrongCSRFToken (itemID : Z) (token : string)
  : M (option failure) :=
  tok <- secureRandomStr 20 ;;
  b <- json_Marshal_ (PBuy (mkReqBuy tok itemID token)) ;;
  urls <- ShareTargetURLs ;;
  r <- newPostRequest (AppURL urls) "/buy" "application/json" b ;;
  match r with
  | inr err => ret (fails_NewError (Some err) "POST /buy: リクエストに失敗しました")
  | inl req =>
      r <- Do req ;;
      match r with
      | inr err => ret (fails_NewError (Some err) "POST /buy: リクエストに失敗しました")
      | inl res =>
          defer Body_Close
            ('(msg, err) <- checkStatusCode res http_StatusUnprocessableEntity ;;
             match err with
             | Some e => ret (fails_NewError err ("POST /buy: " ++ msg))
             | None =>
                 '(re, err) <- json_Decode (mkResErr "") ;;
                 match err with
                 | Some e =>
                     ret (fails_NewError err "POST /buy: JSONデコードに失敗しました")
                 | None => ret None
                 end
             end)
      end
  end.

Definition BuyWithFailed (itemID : Z) (token : string) (expectedStatus : Z)
  (expectedMsg : string) : M (option failure) :=
  tok <- s_csrfToken ;;
  b <- json_Marshal_ (PBuy (mkReqBuy tok itemID token)) ;;
  urls <- ShareTargetURLs ;;
  r <- newPostRequest (AppURL urls) "/buy" "application/json" b ;;
  match r with
  | inr err => ret (fails_NewError (Some err) "POST /buy: リクエストに失敗しました")
  | inl req =>
      r <- Do req ;;
      match r with
      | inr err => ret (fails_NewError (Some err) "POST /buy: リクエストに失敗しました")
      | inl res =>
          defer Body_Close
            ('(msg, err) <- checkStatusCode res expectedStatus ;;
             match err with
             | Some e => ret (fails_NewError err ("POST /buy: " ++ msg))
             | None =>
                 '(re, err) <- json_Decode (mkResErr "") ;;
                 match err with
                 | Some e =>
                     ret (fails_NewError err "POST /buy: JSONデコードに失敗しました")
                 | None =>
                     if negb (String.eqb (Error re) expectedMsg)
                     then ret (fails_NewError err
                                 ("POST /buy: " ++ expectedMsg ++ "というエラーではありません"))
                     else ret None
                 end
             end)
      end
  end.

Definition ShipWithWrongCSRFToken (itemID : Z) : M (option failure) :=
  tok <- secureRandomStr 20 ;;
  b <- json_Marshal_ (PShip (mkReqShip tok itemID)) ;;
  urls <- ShareTargetURLs ;;
  r <- newPostRequest (AppURL urls) "/ship" "application/json" b ;;
  match r with
  | inr err => ret (fails_NewError (Some err) "POST /ship: リクエストに失敗しました")
  | inl req =>
      r <- Do req ;;
      match r with
      | inr err => ret (fails_NewError (Some err) "POST /ship: リクエストに失敗しました")
      | inl res =>
          defer Body_Close
            ('(msg, err) <- checkStatusCode res http_StatusUnprocessableEntity ;;
             match err with
             | Some e => ret (fails_NewError err ("POST /ship: " ++ msg))
             | None =>
                 '(re, err) <- json_Decode (mkResErr "") ;;
                 match err with
                 | Some e =>
                     ret (fails_NewError err "POST /ship: JSONデコードに失敗しました")
                 | None => ret None
                 end
             end)
      end
  end.

Definition ShipWithWrongSeller (itemID : Z) : M (option failure) :=
  tok <- secureRandomStr 20 ;;
  b <- json_Marshal_ (PShip (mkReqShip tok itemID)) ;;
  urls <- ShareTargetURLs ;;
  r <- newPostRequest (AppURL urls) "/ship" "application/json" b ;;
  match r with
  | inr err => ret (fails_NewError (Some err) "POST /ship: リクエストに失敗しました")
  | inl req =>
      r <- Do req ;;
      match r with
      | inr err => ret (fails_NewError (Some err) "POST /ship: リクエストに失敗しました")
      | inl res =>
          defer Body_Close
            ('(msg, err) <- checkStatusCode res http_StatusForbidden ;;
             match err with
             | Some e => ret (fails_NewError err ("POST /ship: " ++ msg))
             | None =>
                 '(re, err) <- json_Decode (mkResErr "") ;;
                 match err with
                 | Some e =>
                     ret (fails_NewError err "POST /ship: JSONデコードに失敗しました")
                 | None =>
                     if negb (String.eqb (Error re) "権限がありません")
                     then ret (fails_NewError err
                                 "POST /ship: 権限がないエラーが発生していません")
                     else ret None
                 end
             end)
      end
  end.

(* ------------------------------------------------------------------ *)
(** ** Running one case *)

(** A call of one of the seven case functions. *)
Inductive CaseCall : Type :=
| CallLoginWithWrongPassword (accountName password : string)
| CallSellWithWrongCSRFToken (name : string) (price : Z)
    (description : string) (categoryID : Z)
| CallSellWithWrongPrice (name : string) (price : Z)
    (description : string) (categoryID : Z)
| CallBuyWithWrongCSRFToken (itemID : Z) (token : string)
| CallBuyWithFailed (itemID : Z) (token : string) (expectedStatus : Z)
    (expectedMsg : string)
| CallShipWithWrongCSRFToken (itemID : Z)
| CallShipWithWrongSeller (itemID : Z).

Definition run_case (c : CaseCall) : M (option failure) :=
  match c with
  | CallLoginWithWrongPassword a p => LoginWithWrongPassword a p
  | CallSellWithWrongCSRFToken n p d c => SellWithWrongCSRFToken n p d c
  | CallSellWithWrongPrice n p d c => SellWithWrongPrice n p d c
  | CallBuyWithWrongCSRFToken i t => BuyWithWrongCSRFToken i t
  | CallBuyWithFailed i t st msg => BuyWithFailed i t st msg
  | CallShipWithWrongCSRFToken i => ShipWithWrongCSRFToken i
  | CallShipWithWrongSeller i => ShipWithWrongSeller i
  end.

(** One call on session [s], observed from a fresh trace. *)
Definition exec (E : Env) (s : Session) (u : TargetURLs) (c : CaseCall)
  : result (option failure) * State :=
  run_case c E (start s u).

Definition outcome (E : Env) (s : Session) (u : TargetURLs) (c : CaseCall)
  : result (option failure) :=
  fst (exec E s u c).

Definition final (E : Env) (s : Session) (u : TargetURLs) (c : CaseCall)
  : State :=
  snd (exec E s u c).

Definition trace_of (E : Env) (s : Session) (u : TargetURLs) (c : CaseCall)
  : list event :=
  st_trace (final E s u c).

(** The spec's table of rejection statuses (section 6): login wrong
    password 401; sell wrong token 422; sell wrong price 400; buy wrong
    token 422; buy business-rule failure caller-specified; ship wrong
    token 422; ship wrong seller 403. *)
Definition expected_status (c : CaseCall) : Z :=
  match c with
  | CallLoginWithWrongPassword _ _ => 401
  | CallSellWithWrongCSRFToken _ _ _ _ => 422
  | CallSellWithWrongPrice _ _ _ _ => 400
  | CallBuyWithWrongCSRFToken _ _ => 422
  | CallBuyWithFailed _ _ expectedStatus _ => expectedStatus
  | CallShipWithWrongCSRFToken _ => 422
  | CallShipWithWrongSeller _ => 403
  end.

(** Whether the call forges its token with [secureRandomStr]. *)
Definition forges (c : CaseCall) : bool :=
  match c with
  | CallSellWithWrongCSRFToken _ _ _ _
  | CallBuyWithWrongCSRFToken _ _
  | CallShipWithWrongCSRFToken _
  | CallShipWithWrongSeller _ => true
  | _ => false
  end.

(** The payload the call marshals, given the token it puts in. *)
Definition payload_with (c : CaseCall) (tok : string) : payload :=
  match c with
  | CallLoginWithWrongPassword a p => PLogin (mkReqLogin a p)
  | CallSellWithWrongCSRFToken n p d cat => PSell (mkReqSell tok n p d cat)
  | CallSellWithWrongPrice n p d cat => PSell (mkReqSell tok n p d cat)
  | CallBuyWithWrongCSRFToken i t => PBuy (mkReqBuy tok i t)
  | CallBuyWithFailed i t _ _ => PBuy (mkReqBuy tok i t)
  | CallShipWithWrongCSRFToken i => PShip (mkReqShip tok i)
  | CallShipWithWrongSeller i => PShip (mkReqShip tok i)
  end.

Definition path_of (c : CaseCall) : string :=
  match c with
  | CallLoginWithWrongPassword _ _ => "/login"
  | CallSellWithWrongCSRFToken _ _ _ _ | CallSellWithWrongPrice _ _ _ _ => "/sell"
  | CallBuyWithWrongCSRFToken _ _ | CallBuyWithFailed _ _ _ _ => "/buy"
  | CallShipWithWrongCSRFToken _ | CallShipWithWrongSeller _ => "/ship"
  end.

(** The message a call insists on, with the diagnostic it reports when
    the decoded message is another one. *)
Definition message_oracle (c : CaseCall) : option (string * string) :=
  match c with
  | CallSellWithWrongPrice _ _ _ _ =>
      Some (ItemPriceErrMsg,
            "POST /sell: 商品価格は100円以上、1,000,000円以下しか出品できません")
  | CallBuyWithFailed _ _ _ expectedMsg =>
      Some (expectedMsg,
            "POST /buy: " ++ expectedMsg ++ "というエラーではありません")
  | CallShipWithWrongSeller _ =>
      Some ("権限がありません", "POST /ship: 権限がないエラーが発生していません")
  | _ => None
  end.

(** The shape the seven functions share: build, send, check the status,
    decode, check the message. *)
Definition generic_case (c : CaseCall) : M (option failure) :=
  tok <- (if forges c then secureRandomStr 20 else s_csrfToken) ;;
  b <- json_Marshal_ (payload_with c tok) ;;
  urls <- ShareTargetURLs ;;
  r <- newPostRequest (AppURL urls) (path_of c) "application/json" b ;;
  match r with
  | inr err =>
      ret (fails_NewError (Some err)
             ("POST " ++ path_of c ++ ": リクエストに失敗しました"))
  | inl req =>
      r <- Do req ;;
      match r with
      | inr err =>
          ret (fails_NewError (Some err)
                 ("POST " ++ path_of c ++ ": リクエストに失敗しました"))
      | inl res =>
          defer Body_Close
            ('(msg, err) <- checkStatusCode res (expected_status c) ;;
             match err with
             | Some e =>
                 ret (fails_NewError err (("POST " ++ path_of c ++ ": ") ++ msg))
             | None =>
                 '(re, err) <- json_Decode (mkResErr "") ;;
                 match err with
                 | Some e =>
                     ret (fails_NewError err
                            ("POST " ++ path_of c ++ ": JSONデコードに失敗しました"))
                 | None =>
                     match message_oracle c with
                     | Some (expected, diag) =>
                         if negb (String.eqb (Error re) expected)
                         then ret (fails_NewError err diag)
                         else ret None
                     | None => ret None
                     end
                 end
             end)
      end
  end.

(* ------------------------------------------------------------------ *)
(** ** Observations on a trace *)

Definition is_close (ev : event) : bool :=
  match ev with EvClose => true | _ => false end.

Definition is_marshal (ev : event) : bool :=
  match ev with EvMarshal _ => true | _ => false end.

Definition is_new_request (ev : event) : bool :=
  match ev with EvNewRequest _ _ => true | _ => false end.

Definition is_do (ev : event) : bool :=
  match ev with EvDo _ _ => true | _ => false end.

Definition count (p : event -> bool) (tr : list event) : nat :=
  List.length (filter p tr).

(** The [CSRFToken] field of a payload, when it has one. *)
Definition payload_token (p : payload) : option string :=
  match p with
  | PLogin _ => None
  | PSell r => Some (sell_CSRFToken r)
  | PBuy r => Some (buy_CSRFToken r)
  | PShip r => Some (ship_CSRFToken r)
  end.

Fixpoint all_bytes (p : ascii -> bool) (s : string) : bool :=
  match s with
  | EmptyString => true
  | String c r => p c && all_bytes p r
  end.

(** A digit [0-9] or a letter [a-f]. *)
Definition is_lower_hex (c : ascii) : bool :=
  Bytes.is_digit c || Bytes.between 97 102 c.

Fixpoint is_prefix (p s : string) : bool :=
  match p, s with
  | EmptyString, _ => true
  | String a p', String b s' => Ascii.eqb a b && is_prefix p' s'
  | String _ _, EmptyString => false
  end.

(** [contains needle hay]: [needle] occurs in [hay]. *)
Fixpoint contains (needle hay : string) : bool :=
  is_prefix needle hay ||
  match hay with
  | EmptyString => false
  | String _ r => contains needle r
  end.

(* ------------------------------------------------------------------ *)
(** ** Sample worlds *)

Definition quote : string := String (Bytes.byte 34) EmptyString.

(** The body [{"error":"<msg>"}] in one piece. *)
Definition error_body (msg : string) : string :=
  "{" ++ quote ++ "error" ++ quote ++ ":" ++ quote ++ msg ++ quote ++ "}".

Definition sample_Marshal (p : payload) : string :=
  match payload_token p with
  | Some tok => tok
  | None => EmptyString
  end.

(** A world whose random source returns zero bytes and whose transport
    answers every request with [res]. *)
Definition answering (res : Response) : Env :=
  mkEnv (fun _ => inl (fun _ => Bytes.byte 0)) sample_Marshal
    (fun _ _ => None) (fun _ _ => inl res) (fun _ _ => "unexpected status code").

(** A world whose random source is broken. *)
Definition no_entropy : Env :=
  mkEnv (fun _ => inr (External "crypto/rand: read failed")) sample_Marshal
    (fun _ _ => None) (fun _ _ => inl (mkResponse 200 [])) (fun _ _ => EmptyString).

Definition alice : Session := mkSession "0123456789abcdef".

Definition urls0 : TargetURLs := mkTargetURLs "http://127.0.0.1:8000".

(** The spec's two scenario calls and the requests they send from
    [alice]'s session in the sample worlds. *)
Definition login_call : CaseCall :=
  CallLoginWithWrongPassword "alice" "wrong-pw".

Definition login_request : Request :=
  mkRequest "POST" "http://127.0.0.1:8000" "/login" "application/json" "".

Definition sell_call : CaseCall := CallSellWithWrongPrice "widget" 50 "desc" 1.

Definition sell_request : Request :=
  mkRequest "POST" "http://127.0.0.1:8000" "/sell" "application/json"
    "0123456789abcdef".

Definition ship_call : CaseCall := CallShipWithWrongSeller 7.

Definition ship_request : Request :=
  mkRequest "POST" "http://127.0.0.1:8000" "/ship" "application/json"
    "0000000000000000000000000000000000000000".

(** A session whose token happens to be forty zeros. *)
Definition zeros : Session :=
  mkSession "0000000000000000000000000000000000000000".

(* ------------------------------------------------------------------ *)
(** ** Three properties the cases are said to have *)

(** "A message mismatch is reported with both strings and the cause":
    the diagnostic holds the expected and the decoded message, and the
    failure has a cause. *)
Definition surfaces_both_messages (E : Env) (s : Session) (u : TargetURLs)
  (c : CaseCall) : Prop :=
  forall expected diag req res re rest,
    message_oracle c = Some (expected, diag) ->
    In (EvDo req (inl res)) (trace_of E s u c) ->
    StatusCode res = expected_status c ->
    Decoder.Decode (Body res) (mkResErr "") = (re, None, rest) ->
    Error re <> expected ->
    exists f,
      outcome E s u c = Val (Some f) /\
      contains expected (message f) = true /\
      contains (Error re) (message f) = true /\
      cause f <> None.

(** "The forged token never equals the session's token." *)
Definition forged_token_never_valid (E : Env) (s : Session) (u : TargetURLs)
  (c : CaseCall) : Prop :=
  forges c = true ->
  forall p, In (EvMarshal p) (trace_of E s u c) ->
            payload_token p <> Some (csrfToken s).



(* ------------------------------------------------------------------ *)
(** ** Further observations *)

Definition is_rand_read (ev : event) : bool :=
  match ev with EvRandRead _ _ => true | _ => false end.

(** The requests handed to the transport, in order. *)
Fixpoint sent (tr : list event) : list Request :=
  match tr with
  | [] => []
  | EvDo req _ :: tl => req :: sent tl
  | _ :: tl => sent tl
  end.

(** The place of a step in a case: read the random source, marshal the
    payload, build the request, send it, decode the body, close it. *)
Definition rank (ev : event) : nat :=
  match ev with
  | EvRandRead _ _ => 0
  | EvMarshal _ => 1
  | EvNewRequest _ _ => 2
  | EvDo _ _ => 3
  | EvDecode => 4
  | EvClose => 5
  end.

(** Each event of the trace has a higher rank than the one before. *)
Fixpoint ascending (tr : list event) : bool :=
  match tr with
  | a :: (b :: _) as tl => (rank a <? rank b)%nat && ascending tl
  | _ => true
  end.

(** A byte that may stand in a JSON string as it is. *)
Definition safe_byte (c : ascii) : bool :=
  (32 <=? Bytes.code c)%N && negb (Bytes.code c =? 34)%N
  && negb (Bytes.code c =? 92)%N.

(** Well-formed UTF-8, [pending] bytes of the current sequence being
    still to come. *)
Fixpoint well_formed (pending : nat) (s : string) : bool :=
  match s with
  | EmptyString => true
  | String c r =>
      match pending with
      | S k => well_formed k r
      | O =>
          if (Bytes.code c <? 128)%N then well_formed 0 r
          else
            match Utf8.seq_len s with
            | O => false
            | S k => well_formed k r
            end
      end
  end.

(** A message a server can put between quotes unchanged: well-formed
    UTF-8 with no quote, backslash or control byte. *)
Definition plain (m : string) : bool :=
  all_bytes safe_byte m && well_formed 0 m.

(** Reading hexadecimal back, two digits a byte. *)
Fixpoint hex_decode (t : string) : option string :=
  match t with
  | EmptyString => Some EmptyString
  | String hi (String lo r) =>
      if Bytes.is_hex hi && Bytes.is_hex lo then
        match hex_decode r with
        | Some k =>
            Some (String (Bytes.byte (Bytes.hex_val hi * 16 + Bytes.hex_val lo)) k)
        | None => None
        end
      else None
  | String _ EmptyString => None
  end.

(** A body that holds nothing but JSON white space. *)
Definition blank (body : list string) : bool :=
  forallb (all_bytes Bytes.is_space) body.

(** A world in which no connection can be made. *)
Definition unreachable : Env :=
  mkEnv (fun _ => inl (fun _ => Bytes.byte 0)) sample_Marshal
    (fun _ _ => None)
    (fun _ _ => inr (External "dial tcp: connection refused"))
    (fun _ _ => EmptyString).

(** A world in which no request can be built. *)
Definition unbuildable : Env :=
  mkEnv (fun _ => inl (fun _ => Bytes.byte 0)) sample_Marshal
    (fun _ _ => Some (External "parse: invalid URL"))
    (fun _ _ => inl (mkResponse 200 []))
    (fun _ _ => EmptyString).

(* ------------------------------------------------------------------ *)
(** ** The parser never runs out of fuel *)

Module JsonFacts.

Import Bytes Json.

Lemma skip_ws_length s : String.length (skip_ws s) <= String.length s.
Proof.
  induction s as [ | c r IH]; simpl; [ lia | ].
  destruct (is_space c); simpl; lia.
Qed.

Lemma shrinks_map {A B} (f : A -> B) r s : shrinks r s -> shrinks (scan_map f r) s.
Proof. destruct r; simpl; auto. Qed.

Lemma shrinks_longer {A} (r : scan A) s s' :
  shrinks r s' -> String.length s' <= String.length s -> shrinks r s.
Proof. destruct r; simpl; auto; lia. Qed.

Lemma digits_length s : String.length (snd (digits s)) <= String.length s.
Proof.
  induction s as [ | c r IH]; simpl; [ lia | ].
  destruct (is_digit c); simpl; [ | lia ].
  destruct (digits r) as [d t]; simpl in *; lia.
Qed.

Lemma digits1_shrinks s : shrinks (digits1 s) s.
Proof.
  unfold digits1. pose proof (digits_length s) as H.
  destruct (digits s) as [[ | a d] [ | b t]]; simpl in *; auto.
Qed.

Lemma scan_exp_shrinks s : shrinks (scan_exp s) s.
Proof.
  destruct s as [ | c r]; simpl; [ lia | ].
  destruct ((code c =? 101)%N || (code c =? 69)%N); simpl; [ | lia ].
  destruct r as [ | g r']; simpl; [ exact I | ].
  destruct ((code g =? 43)%N || (code g =? 45)%N); apply shrinks_map.
  - apply (shrinks_longer _ _ r' (digits1_shrinks r')). simpl. lia.
  - apply (shrinks_longer _ _ (String g r') (digits1_shrinks _)). simpl. lia.
Qed.

Lemma scan_frac_shrinks s : shrinks (scan_frac s) s.
Proof.
  destruct s as [ | c r]; simpl; [ lia | ].
  destruct (code c =? 46)%N; simpl; [ | lia ].
  apply shrinks_map, (shrinks_longer _ _ r (digits1_shrinks r)). simpl. lia.
Qed.

Lemma scan_int_shrinks s : shrinks (scan_int s) s.
Proof.
  destruct s as [ | c r]; simpl; [ exact I | ].
  destruct (code c =? 48)%N; simpl; [ lia | ].
  destruct (is_digit19 c); simpl; [ | exact I ].
  pose proof (digits_length r) as H.
  destruct (digits r) as [d t]; simpl in *; lia.
Qed.

Lemma scan_seq_shrinks p q :
  (forall s, shrinks (p s) s) -> (forall s, shrinks (q s) s) ->
  forall s, shrinks (scan_seq p q s) s.
Proof.
  intros Hp Hq s. unfold scan_seq. specialize (Hp s).
  destruct (p s) as [a t | | ]; simpl in *; auto.
  apply shrinks_map, (shrinks_longer _ _ t (Hq t)). exact Hp.
Qed.

Lemma scan_number_shrinks s : shrinks (scan_number s) s.
Proof.
  assert (H : forall t, shrinks (scan_seq scan_int (scan_seq scan_frac scan_exp) t) t).
  { apply scan_seq_shrinks; [ exact scan_int_shrinks | ].
    apply scan_seq_shrinks; [ exact scan_frac_shrinks | exact scan_exp_shrinks ]. }
  destruct s as [ | c r]; [ exact I | ].
  unfold scan_number. destruct (code c =? 45)%N; [ | apply H ].
  apply shrinks_map, (shrinks_longer _ _ r (H r)). simpl. lia.
Qed.

Lemma scan_word_shrinks w s : shrinks (scan_word w s) s.
Proof.
  revert s; induction w as [ | a w IH]; intros s; simpl.
  - destruct s; simpl; lia.
  - destruct s as [ | c r]; [ exact I | ].
    destruct (code a =? code c)%N; [ | exact I ].
    apply (shrinks_longer _ _ r (IH r)). simpl. lia.
Qed.

Lemma scan_string_shrinks_below n s :
  String.length s <= n -> shrinks (scan_string s) s.
Proof.
  revert s; induction n as [ | n IH]; intros s Hn.
  - destruct s; simpl in *; [ exact I | lia ].
  - destruct s as [ | c r]; [ exact I | ].
    simpl in Hn. unfold scan_string; fold scan_string.
    destruct (code c =? 34)%N; [ simpl; lia | ].
    destruct (code c =? 92)%N.
    + destruct r as [ | e r1]; [ exact I | ].
      destruct (is_simple_escape e).
      * apply shrinks_map, (shrinks_longer _ _ r1); [ apply IH | ]; simpl in *; lia.
      * destruct (code e =? 117)%N; [ | exact I ].
        destruct r1 as [ | h1 [ | h2 [ | h3 [ | h4 r2]]]];
          repeat match goal with
                 | |- shrinks (if ?b then _ else _) _ => destruct b
                 end;
          try exact I.
        apply shrinks_map, (shrinks_longer _ _ r2); [ apply IH | ]; simpl in *; lia.
    + destruct (code c <? 32)%N; [ exact I | ].
      apply shrinks_map, (shrinks_longer _ _ r); [ apply IH | ]; simpl; lia.
Qed.

Lemma scan_string_shrinks s : shrinks (scan_string s) s.
Proof. apply (scan_string_shrinks_below (String.length s)). lia. Qed.

Lemma settled_longer r s s' :
  settled r s' -> String.length s' <= String.length s -> settled r s.
Proof. destruct r; simpl; [ apply shrinks_longer | auto ]. Qed.

Lemma parse_settled f :
  (forall dep s, 2 * String.length s + 1 <= f -> settled (parse_value f dep s) s) /\
  (forall dep acc s, 2 * String.length s + 2 <= f ->
                   settled (parse_members f dep acc s) s) /\
  (forall dep acc s, 2 * String.length s + 2 <= f ->
                   settled (parse_elements f dep acc s) s).
Proof.
  induction f as [ | f (IHv & IHm & IHe)].
  - repeat split; intros; lia.
  - repeat split.
    + intros dep s Hf. cbn [parse_value].
      pose proof (skip_ws_length s) as Hs.
      destruct (skip_ws s) as [ | c r]; [ exact I | ]. simpl in Hs.
      destruct (code c =? 123)%N.
      { destruct (maxNestingDepth <=? dep)%N; [ exact I | ].
        pose proof (skip_ws_length r) as Hr.
        destruct (skip_ws r) as [ | d r']; [ exact I | ]. simpl in Hr.
        destruct (code d =? 125)%N; [ simpl; lia | ].
        apply (settled_longer _ _ (String d r')); [ apply IHm | ]; simpl; lia. }
      destruct (code c =? 91)%N.
      { destruct (maxNestingDepth <=? dep)%N; [ exact I | ].
        pose proof (skip_ws_length r) as Hr.
        destruct (skip_ws r) as [ | d r']; [ exact I | ]. simpl in Hr.
        destruct (code d =? 93)%N; [ simpl; lia | ].
        apply (settled_longer _ _ (String d r')); [ apply IHe | ]; simpl; lia. }
      destruct (code c =? 34)%N.
      { apply shrinks_map, (shrinks_longer _ _ r (scan_string_shrinks r)). lia. }
      destruct ((code c =? 45)%N || is_digit c).
      { apply shrinks_map, (shrinks_longer _ _ _ (scan_number_shrinks _)).
        simpl. lia. }
      destruct (code c =? 116)%N.
      { apply shrinks_map, (shrinks_longer _ _ r (scan_word_shrinks _ r)). lia. }
      destruct (code c =? 102)%N.
      { apply shrinks_map, (shrinks_longer _ _ r (scan_word_shrinks _ r)). lia. }
      destruct (code c =? 110)%N; [ | exact I ].
      apply shrinks_map, (shrinks_longer _ _ r (scan_word_shrinks _ r)). lia.
    + intros dep acc s Hf. cbn [parse_members].
      destruct s as [ | q r]; [ exact I | ]. simpl in Hf.
      destruct (code q =? 34)%N; [ | exact I ].
      pose proof (scan_string_shrinks r) as Hk.
      destruct (scan_string r) as [raw t | | ]; try exact I. simpl in Hk.
      pose proof (skip_ws_length t) as Ht.
      destruct (skip_ws t) as [ | col t']; [ exact I | ]. simpl in Ht.
      destruct (code col =? 58)%N; [ | exact I ].
      assert (Hv : settled (parse_value f dep t') t') by (apply IHv; lia).
      destruct (parse_value f dep t') as [[v w | | ] | ]; simpl in Hv;
        try exact I; try contradiction.
      pose proof (skip_ws_length w) as Hw.
      destruct (skip_ws w) as [ | e w']; [ exact I | ]. simpl in Hw.
      destruct (code e =? 125)%N; [ simpl; lia | ].
      destruct (code e =? 44)%N; [ | exact I ].
      pose proof (skip_ws_length w') as Hw'.
      apply (settled_longer _ _ (skip_ws w')); [ apply IHm | ]; simpl; lia.
    + intros dep acc s Hf. cbn [parse_elements].
      assert (Hv : settled (parse_value f dep s) s) by (apply IHv; lia).
      destruct (parse_value f dep s) as [[v w | | ] | ]; simpl in Hv;
        try exact I; try contradiction.
      pose proof (skip_ws_length w) as Hw.
      destruct (skip_ws w) as [ | e w']; [ exact I | ]. simpl in Hw.
      destruct (code e =? 93)%N; [ simpl; lia | ].
      destruct (code e =? 44)%N; [ | exact I ].
      apply (settled_longer _ _ w'); [ apply IHe | ]; lia.
Qed.

(** An object or array opened inside [maxNestingDepth] others is a
    syntax error, whatever follows it. *)
Lemma nesting_is_limited f dep c r :
  (maxNestingDepth <= dep)%N ->
  (code c =? 123)%N || (code c =? 91)%N = true ->
  is_space c = false ->
  parse_value (S f) dep (String c r) = Parsed Bad.
Proof.
  intros Hdep Hc Hsp. apply N.leb_le in Hdep.
  cbn [parse_value skip_ws]. rewrite Hsp.
  destruct (code c =? 123)%N; [ rewrite Hdep; reflexivity | ].
  simpl in Hc. rewrite Hc, Hdep. reflexivity.
Qed.

(** The fuel the decoder grants is never used up. *)
Lemma parse_value_fuel buf :
  parse_value (Decoder.fuel_for buf) 0 buf <> OutOfFuel.
Proof.
  destruct (parse_settled (Decoder.fuel_for buf)) as (Hv & _ & _).
  specialize (Hv 0%N buf). unfold Decoder.fuel_for in *.
  intros Hout. rewrite Hout in Hv. apply Hv. lia.
Qed.

End JsonFacts.

(* ------------------------------------------------------------------ *)
(** ** Every case has the shared shape *)

Lemma run_case_generic (c : CaseCall) : run_case c = generic_case c.
Proof. destruct c; reflexivity. Qed.

Arguments hex_encode : simpl never.
Arguments take_bytes : simpl never.
Arguments Decoder.Decode : simpl never.
Arguments String.append : simpl never.

(** Take one call apart along its branches: random source, request
    construction, transport, status, decoding, message. *)
Ltac step :=
  simpl;
  match goal with
  | |- context [forges ?c] => destruct (forges c) eqn:Hforges
  | |- context [rand_source ?E ?n] =>
      destruct (rand_source E n) as [rnd | rerr] eqn:Hrand
  | |- context [new_request_error ?E ?a ?b] =>
      destruct (new_request_error E a b) as [nerr | ] eqn:Hnew
  | |- context [round_trip ?E ?s ?r] =>
      destruct (round_trip E s r) as [res0 | terr] eqn:Htrip
  | |- context [(StatusCode ?r =? ?x)%Z] =>
      destruct (StatusCode r =? x)%Z eqn:Hstatus
  | |- context [Decoder.Decode ?b ?r] =>
      destruct (Decoder.Decode b r) as [[re0 [derr | ]] rest0] eqn:Hdec
  | |- context [message_oracle ?c] =>
      destruct (message_oracle c) as [[expected0 diag0] | ] eqn:Horacle
  | |- context [String.eqb ?a ?b] => destruct (String.eqb a b) eqn:Hmsg
  end.

Ltac walk :=
  unfold outcome, trace_of, final, exec; rewrite ?run_case_generic;
  unfold generic_case, secureRandomStr, crand_Read, json_Marshal_,
    ShareTargetURLs, s_csrfToken, newPostRequest, Do, defer, checkStatusCode,
    json_Decode, Body_Close, fails_NewError, bind, ret, panic, start,
    emit, set_unread, tick_rand;
  repeat step; simpl.

(** Settle a hypothesis [In ev trace] on a concrete trace. *)
Ltac pick H :=
  simpl in H;
  repeat (destruct H as [H | H];
          [ try discriminate H;
            try (first [ injection H as ? ? | injection H as ? ]; subst) | ]);
  try contradiction.

(** Turn the recorded result of the status comparison into a
    proposition. *)
Ltac status :=
  match goal with
  | H : (_ =? _)%Z = true |- _ => apply Z.eqb_eq in H
  | H : (_ =? _)%Z = false |- _ => apply Z.eqb_neq in H
  | _ => idtac
  end.

(* ------------------------------------------------------------------ *)
(** ** Expected statuses *)

(** C1: whenever the transport hands back a response, each case checks
    its status against the value of the spec's rejection table
    ([expected_status]: 401 for LoginWithWrongPassword, 422 for the three
    WrongCSRFToken cases, 400 for SellWithWrongPrice, the caller's
    [expectedStatus] for BuyWithFailed, 403 for ShipWithWrongSeller): any
    other status is reported as a status failure naming that expected
    value, and with that status the case goes on to decode the body. *)
Theorem expected_status_follows_table E s u c req res :
  In (EvDo req (inl res)) (trace_of E s u c) ->
  (StatusCode res <> expected_status c ->
   exists f, outcome E s u c = Val (Some f) /\
             cause f = Some (StatusCodeError (StatusCode res) (expected_status c)))
  /\
  (StatusCode res = expected_status c -> In EvDecode (trace_of E s u c)).
Proof.
  walk; intros Hin; pick Hin; status; split; intros Hs;
    try contradiction;
    try (eexists; split; reflexivity);
    simpl; tauto.
Qed.

Lemma expected_status_follows_table_witness :
  In (EvDo (mkRequest "POST" "http://127.0.0.1:8000" "/login" "application/json" "")
        (inl (mkResponse 500 [])))
     (trace_of (answering (mkResponse 500 [])) alice urls0
        (CallLoginWithWrongPassword "alice" "wrong-pw"))
  /\
  exists f,
    outcome (answering (mkResponse 500 [])) alice urls0
      (CallLoginWithWrongPassword "alice" "wrong-pw") = Val (Some f) /\
    cause f = Some (StatusCodeError 500 401).
Proof.
  assert (Hin : In (EvDo (mkRequest "POST" "http://127.0.0.1:8000" "/login"
                            "application/json" "")
                      (inl (mkResponse 500 [])))
                   (trace_of (answering (mkResponse 500 [])) alice urls0
                      (CallLoginWithWrongPassword "alice" "wrong-pw"))).
  { vm_compute. right. right. left. reflexivity. }
  split; [exact Hin | ].
  apply (expected_status_follows_table _ _ _ _ _ _ Hin).
  simpl. discriminate.
Defined.

(* ------------------------------------------------------------------ *)
(** ** Cases that insist on a message *)

Arguments String.eqb : simpl never.

(** Turn the recorded result of the message comparison into a
    proposition. *)
Ltac message :=
  match goal with
  | H : String.eqb _ _ = true |- _ => apply String.eqb_eq in H
  | H : String.eqb _ _ = false |- _ => apply String.eqb_neq in H
  | _ => idtac
  end.

(** Two records of what the decoder made of the same body agree. *)
Ltac same_decode :=
  match goal with
  | H1 : Decoder.Decode ?b ?r = _, H2 : Decoder.Decode ?b ?r = _ |- _ =>
      rewrite H1 in H2; injection H2; intros; subst
  end.

(** Find the event in a concrete trace. *)
Ltac member := simpl; repeat first [ left; reflexivity | right ].

(** Nil exactly on the expected status with the expected message, on one
    branch of the run. *)
Ltac nil_iff_branch :=
  split;
  [ intros Hnil;
    first
      [ discriminate Hnil
      | do 3 eexists; split; [ member | ];
        split; [ assumption | ];
        match goal with
        | Hm : Error ?r = _, Hd : Decoder.Decode _ _ = (?r, None, _) |- _ =>
            destruct r; simpl in Hm; subst; exact Hd
        end ]
  | intros (req & res & rest & Hin & Hs & Hd); pick Hin;
    try contradiction; same_decode; try discriminate;
    try reflexivity;
    match goal with
    | Hm : Error _ <> _ |- _ => exfalso; apply Hm; reflexivity
    end ].

(** A decoded message other than the expected one is a failure, on one
    branch of the run. *)
Ltac other_message_branch :=
  intros req res re rest Hin Hs Hd Hne; pick Hin;
  try (eexists; reflexivity);
  same_decode; contradiction.

(** C2: SellWithWrongPrice returns nil exactly when the response has
    status 400 and its body decodes, without error, to the message
    [ItemPriceErrMsg] (compared byte for byte); with status 400 and any
    other decoded message it returns a failure.  The constants are
    ItemMinPrice = 100, ItemMaxPrice = 1000000 and the message below. *)
Theorem SellWithWrongPrice_nil_iff_price_message E s u name price description categoryID :
  (ItemMinPrice = 100%Z /\ ItemMaxPrice = 1000000%Z /\
   ItemPriceErrMsg = "商品価格は100円以上、1,000,000円以下にしてください")
  /\
  (outcome E s u (CallSellWithWrongPrice name price description categoryID) = Val None
   <->
   exists req res rest,
     In (EvDo req (inl res))
        (trace_of E s u (CallSellWithWrongPrice name price description categoryID)) /\
     StatusCode res = 400%Z /\
     Decoder.Decode (Body res) (mkResErr "") = (mkResErr ItemPriceErrMsg, None, rest))
  /\
  (forall req res re rest,
     In (EvDo req (inl res))
        (trace_of E s u (CallSellWithWrongPrice name price description categoryID)) ->
     StatusCode res = 400%Z ->
     Decoder.Decode (Body res) (mkResErr "") = (re, None, rest) ->
     Error re <> ItemPriceErrMsg ->
     exists f,
       outcome E s u (CallSellWithWrongPrice name price description categoryID)
       = Val (Some f)).
Proof.
  split; [repeat split | ].
  walk; status; message; (split; [nil_iff_branch | other_message_branch]).
Qed.


(** C3: ShipWithWrongSeller returns nil exactly when the response has
    status 403 and its body decodes, without error, to the message
    "権限がありません"; a 403 with any other decoded message is a
    failure. *)
Theorem ShipWithWrongSeller_nil_iff_forbidden_message E s u itemID :
  (outcome E s u (CallShipWithWrongSeller itemID) = Val None
   <->
   exists req res rest,
     In (EvDo req (inl res)) (trace_of E s u (CallShipWithWrongSeller itemID)) /\
     StatusCode res = 403%Z /\
     Decoder.Decode (Body res) (mkResErr "")
     = (mkResErr "権限がありません", None, rest))
  /\
  (forall req res re rest,
     In (EvDo req (inl res)) (trace_of E s u (CallShipWithWrongSeller itemID)) ->
     StatusCode res = 403%Z ->
     Decoder.Decode (Body res) (mkResErr "") = (re, None, rest) ->
     Error re <> "権限がありません" ->
     exists f, outcome E s u (CallShipWithWrongSeller itemID) = Val (Some f)).
Proof.
  walk; status; message; (split; [nil_iff_branch | other_message_branch]).
Qed.

(* ------------------------------------------------------------------ *)
(** ** Status mismatch *)

(** C4: for every case, when the status of the response differs from the
    expected one the case returns a failure whose diagnostic is the
    operation followed by checkStatusCode's diagnostic string, and the
    body is never handed to the JSON decoder; decoding happens only with
    the expected status. *)
Theorem status_mismatch_skips_decoding E s u c req res :
  In (EvDo req (inl res)) (trace_of E s u c) ->
  (StatusCode res <> expected_status c ->
   (exists f,
      outcome E s u c = Val (Some f) /\
      message f = ("POST " ++ path_of c ++ ": ")
                  ++ status_diag E (StatusCode res) (expected_status c)) /\
   ~ In EvDecode (trace_of E s u c))
  /\
  (In EvDecode (trace_of E s u c) -> StatusCode res = expected_status c).
Proof.
  walk; intros Hin; pick Hin; status; split;
    try (intros Hs; try contradiction; split;
         [ eexists; split; reflexivity
         | intros Hd; pick Hd ]);
    try (intros _; assumption);
    intros Hd; pick Hd.
Qed.

(* ------------------------------------------------------------------ *)
(** ** Panics *)

(** C7: a case that forges its token (SellWithWrongCSRFToken,
    BuyWithWrongCSRFToken, ShipWithWrongCSRFToken, ShipWithWrongSeller)
    panics with the random source's error when that source fails, and
    returns no failure value then; no case panics for any other reason. *)
Theorem only_random_failure_panics E s u c :
  (forall e, forges c = true -> rand_source E 0 = inr e ->
             outcome E s u c = Panic e)
  /\
  (forall e, outcome E s u c = Panic e ->
             forges c = true /\ rand_source E 0 = inr e).
Proof.
  walk; split; intros e; intros; try discriminate; try congruence;
    split; congruence.
Qed.

(* ------------------------------------------------------------------ *)
(** ** The response body *)


(* ------------------------------------------------------------------ *)
(** ** The session *)

(** C9: no case writes the session or the target URLs: both are the same
    after the call as before.  A case that returns has marshalled exactly
    one request value, and no case builds or sends a request more than
    once.  SellWithWrongPrice and BuyWithFailed put the session's own
    token into that value. *)
Theorem session_untouched E s u c :
  st_session (final E s u c) = s /\
  st_urls (final E s u c) = u /\
  (forall r, outcome E s u c = Val r ->
             count is_marshal (trace_of E s u c) = 1) /\
  count is_marshal (trace_of E s u c) <= 1 /\
  count is_new_request (trace_of E s u c) <= 1 /\
  count is_do (trace_of E s u c) <= 1 /\
  match c with
  | CallSellWithWrongPrice _ _ _ _ | CallBuyWithFailed _ _ _ _ =>
      forall p, In (EvMarshal p) (trace_of E s u c) ->
                payload_token p = Some (csrfToken s)
  | _ => True
  end.
Proof.
  destruct c; walk; unfold count; simpl;
    repeat (split; [ first [ reflexivity | lia | intros; discriminate
                           | intros; reflexivity ] | ]);
    try exact I;
    intros p Hp; pick Hp; reflexivity.
Qed.

(* ------------------------------------------------------------------ *)
(** ** Message mismatch *)

(** C5, counterexample: SellWithWrongPrice answered with status 400 and
    the body {"error":"boom"} returns a failure without cause whose
    diagnostic contains neither "boom" nor [ItemPriceErrMsg]. *)
Lemma mismatch_diagnostic_omits_decoded_message :
  ~ surfaces_both_messages (answering (mkResponse 400 [error_body "boom"]))
      alice urls0 (CallSellWithWrongPrice "widget" 50 "desc" 1)
  /\
  outcome (answering (mkResponse 400 [error_body "boom"])) alice urls0
    (CallSellWithWrongPrice "widget" 50 "desc" 1)
  = Val (Some (mkFailure None
                 "POST /sell: 商品価格は100円以上、1,000,000円以下しか出品できません"))
  /\
  contains "boom"
    "POST /sell: 商品価格は100円以上、1,000,000円以下しか出品できません" = false
  /\
  contains ItemPriceErrMsg
    "POST /sell: 商品価格は100円以上、1,000,000円以下しか出品できません" = false.
Proof.
  split; [ | split; [ | split ]; vm_compute; reflexivity ].
  intros H. unfold surfaces_both_messages in H.
  edestruct H as (f & Hout & _ & Hc & _).
  - reflexivity.
  - cbv. do 2 right. left. reflexivity.
  - reflexivity.
  - vm_compute. reflexivity.
  - cbv. discriminate.
  - vm_compute in Hout. injection Hout as <-.
    vm_compute in Hc. discriminate Hc.
Qed.

(** C5, as amended: when the decoded message differs from the expected
    one, the failure carries the diagnostic fixed for the case and no
    cause, the error passed on being the nil result of decoding.
    BuyWithFailed's diagnostic is built around the expected message, the
    other two are constant texts; the decoded message is not used to
    build any of them, so the diagnostic is the same whatever was
    decoded. *)
Theorem message_mismatch_diagnostics E s u c req res re rest :
  In (EvDo req (inl res)) (trace_of E s u c) ->
  StatusCode res = expected_status c ->
  Decoder.Decode (Body res) (mkResErr "") = (re, None, rest) ->
  match c with
  | CallSellWithWrongPrice _ _ _ _ =>
      Error re <> ItemPriceErrMsg ->
      outcome E s u c
      = Val (Some (mkFailure None
                     "POST /sell: 商品価格は100円以上、1,000,000円以下しか出品できません"))
  | CallBuyWithFailed _ _ _ expectedMsg =>
      Error re <> expectedMsg ->
      outcome E s u c
      = Val (Some (mkFailure None
                     ("POST /buy: " ++ expectedMsg ++ "というエラーではありません")))
  | CallShipWithWrongSeller _ =>
      Error re <> "権限がありません" ->
      outcome E s u c
      = Val (Some (mkFailure None "POST /ship: 権限がないエラーが発生していません"))
  | _ => True
  end.
Proof.
  intros Hin Hs Hd; revert Hin; destruct c; try (intros; exact I);
    walk; intros Hin; pick Hin; status; message; intros Hne;
    simpl in Hs; try contradiction; same_decode; try discriminate;
    first [ reflexivity | contradiction ].
Qed.

(* ------------------------------------------------------------------ *)
(** ** Forged tokens *)

Lemma take_bytes_length f i n : String.length (take_bytes f i n) = n.
Proof.
  revert i; induction n as [ | n IH]; intros i; unfold take_bytes; fold take_bytes;
    simpl; [ reflexivity | rewrite IH; reflexivity ].
Qed.

Lemma hex_encode_length k : String.length (hex_encode k) = 2 * String.length k.
Proof.
  induction k as [ | c k IH]; unfold hex_encode; fold hex_encode; simpl;
    [ reflexivity | rewrite IH; lia ].
Qed.

Lemma hex_digits_lower c :
  is_lower_hex (Bytes.hex_digit (Bytes.code c / 16)) = true /\
  is_lower_hex (Bytes.hex_digit (Bytes.code c mod 16)) = true.
Proof.
  destruct c as [[] [] [] [] [] [] [] []]; split; vm_compute; reflexivity.
Qed.

Lemma hex_encode_lower k : all_bytes is_lower_hex (hex_encode k) = true.
Proof.
  induction k as [ | c k IH]; unfold hex_encode; fold hex_encode;
    [ reflexivity | ].
  destruct (hex_digits_lower c) as [Hhi Hlo].
  cbn [all_bytes]. rewrite Hhi, Hlo, IH. reflexivity.
Qed.

(** C6, counterexample: the random source hands out twenty zero bytes
    and the session's token is forty zeros; SellWithWrongCSRFToken then
    sends the session's own token. *)
Lemma forged_token_can_equal_session_token :
  ~ forged_token_never_valid (answering (mkResponse 422 ["{}"])) zeros urls0
      (CallSellWithWrongCSRFToken "widget" 100 "desc" 1)
  /\
  In (EvMarshal (PSell (mkReqSell (csrfToken zeros) "widget" 100 "desc" 1)))
     (trace_of (answering (mkResponse 422 ["{}"])) zeros urls0
        (CallSellWithWrongCSRFToken "widget" 100 "desc" 1)).
Proof.
  assert (Hin : In (EvMarshal (PSell (mkReqSell (csrfToken zeros) "widget" 100 "desc" 1)))
                   (trace_of (answering (mkResponse 422 ["{}"])) zeros urls0
                      (CallSellWithWrongCSRFToken "widget" 100 "desc" 1))).
  { vm_compute. right. left. reflexivity. }
  split; [ | exact Hin ].
  intros H. exact (H eq_refl _ Hin eq_refl).
Qed.

(** The token field of what a forging case marshals. *)
Lemma forged_token_source E s u c p :
  forges c = true ->
  In (EvMarshal p) (trace_of E s u c) ->
  exists rnd,
    rand_source E 0 = inl rnd /\
    payload_token p = Some (hex_encode (take_bytes rnd 0 20)).
Proof.
  intros Hf; destruct c; try discriminate Hf; clear Hf;
    walk; intros Hin; pick Hin; exists rnd; split; reflexivity.
Qed.

(** C6, as amended: the token a forging case sends is the hexadecimal
    encoding of the twenty bytes the random source returned, forty
    characters out of [0-9a-f], chosen without looking at the session; it
    equals the session's token exactly when that token is this encoding,
    so never when the session's token is not forty characters long. *)
Theorem forged_token_is_hex_of_random_bytes E s u c p :
  forges c = true ->
  In (EvMarshal p) (trace_of E s u c) ->
  exists rnd,
    rand_source E 0 = inl rnd /\
    payload_token p = Some (hex_encode (take_bytes rnd 0 20)) /\
    String.length (hex_encode (take_bytes rnd 0 20)) = 40 /\
    all_bytes is_lower_hex (hex_encode (take_bytes rnd 0 20)) = true /\
    (payload_token p = Some (csrfToken s)
     <-> csrfToken s = hex_encode (take_bytes rnd 0 20)) /\
    (String.length (csrfToken s) <> 40 -> payload_token p <> Some (csrfToken s)).
Proof.
  intros Hf Hin.
  destruct (forged_token_source E s u c p Hf Hin) as (rnd & Hrand & Htok).
  assert (Hlen : String.length (hex_encode (take_bytes rnd 0 20)) = 40)
    by (rewrite hex_encode_length, take_bytes_length; reflexivity).
  exists rnd. rewrite Htok.
  repeat split; try assumption.
  - apply hex_encode_lower.
  - congruence.
  - congruence.
  - intros Hne Heq. injection Heq as Heq. rewrite <- Heq in Hne. contradiction.
Qed.

(* ------------------------------------------------------------------ *)
(** ** What is left of the body *)


(* ------------------------------------------------------------------ *)
(** ** A body without the error field *)




(* ------------------------------------------------------------------ *)
(** ** The theorems at work on the sample worlds *)

Lemma SellWithWrongPrice_nil_iff_price_message_witness :
  outcome (answering (mkResponse 400 [error_body ItemPriceErrMsg])) alice urls0
    sell_call = Val None.
Proof.
  apply (SellWithWrongPrice_nil_iff_price_message
           (answering (mkResponse 400 [error_body ItemPriceErrMsg]))
           alice urls0 "widget" 50%Z "desc" 1%Z).
  exists sell_request, (mkResponse 400 [error_body ItemPriceErrMsg]), [].
  split; [ vm_compute; do 2 right; left; reflexivity | ].
  split; vm_compute; reflexivity.
Defined.

Lemma ShipWithWrongSeller_nil_iff_forbidden_message_witness :
  outcome (answering (mkResponse 403 [error_body "権限がありません"])) alice urls0
    ship_call = Val None.
Proof.
  apply (ShipWithWrongSeller_nil_iff_forbidden_message
           (answering (mkResponse 403 [error_body "権限がありません"]))
           alice urls0 7%Z).
  exists ship_request, (mkResponse 403 [error_body "権限がありません"]), [].
  split; [ vm_compute; do 3 right; left; reflexivity | ].
  split; vm_compute; reflexivity.
Defined.

Lemma status_mismatch_skips_decoding_witness :
  In (EvDo login_request (inl (mkResponse 500 [error_body "boom"])))
     (trace_of (answering (mkResponse 500 [error_body "boom"])) alice urls0 login_call)
  /\
  (exists f,
     outcome (answering (mkResponse 500 [error_body "boom"])) alice urls0 login_call
     = Val (Some f) /\
     message f = "POST /login: unexpected status code")
  /\
  ~ In EvDecode
      (trace_of (answering (mkResponse 500 [error_body "boom"])) alice urls0 login_call).
Proof.
  assert (Hin : In (EvDo login_request (inl (mkResponse 500 [error_body "boom"])))
                   (trace_of (answering (mkResponse 500 [error_body "boom"]))
                      alice urls0 login_call)).
  { vm_compute. do 2 right. left. reflexivity. }
  split; [ exact Hin | ].
  apply (status_mismatch_skips_decoding _ _ _ _ _ _ Hin).
  simpl. discriminate.
Defined.

Lemma only_random_failure_panics_witness :
  outcome no_entropy alice urls0 (CallBuyWithWrongCSRFToken 7 "card")
  = Panic (External "crypto/rand: read failed").
Proof.
  apply (only_random_failure_panics no_entropy alice urls0
           (CallBuyWithWrongCSRFToken 7 "card"));
    reflexivity.
Defined.


Lemma message_mismatch_diagnostics_witness :
  In (EvDo sell_request (inl (mkResponse 400 [error_body "boom"])))
     (trace_of (answering (mkResponse 400 [error_body "boom"])) alice urls0 sell_call)
  /\
  Decoder.Decode [error_body "boom"] (mkResErr "") = (mkResErr "boom", None, [])
  /\
  outcome (answering (mkResponse 400 [error_body "boom"])) alice urls0 sell_call
  = Val (Some (mkFailure None
                 "POST /sell: 商品価格は100円以上、1,000,000円以下しか出品できません")).
Proof.
  assert (Hin : In (EvDo sell_request (inl (mkResponse 400 [error_body "boom"])))
                   (trace_of (answering (mkResponse 400 [error_body "boom"]))
                      alice urls0 sell_call)).
  { vm_compute. do 2 right. left. reflexivity. }
  assert (Hdec : Decoder.Decode [error_body "boom"] (mkResErr "")
                 = (mkResErr "boom", None, [])).
  { vm_compute. reflexivity. }
  split; [ exact Hin | ]. split; [ exact Hdec | ].
  apply (message_mismatch_diagnostics _ _ _ sell_call _ _ _ _ Hin eq_refl Hdec).
  cbv. discriminate.
Defined.

Lemma forged_token_is_hex_of_random_bytes_witness :
  In (EvMarshal (PShip (mkReqShip "0000000000000000000000000000000000000000" 7)))
     (trace_of (answering (mkResponse 403 [])) alice urls0 ship_call)
  /\
  payload_token (PShip (mkReqShip "0000000000000000000000000000000000000000" 7))
  <> Some (csrfToken alice).
Proof.
  assert (Hin : In (EvMarshal (PShip (mkReqShip
                                        "0000000000000000000000000000000000000000" 7)))
                   (trace_of (answering (mkResponse 403 [])) alice urls0 ship_call)).
  { vm_compute. right. left. reflexivity. }
  split; [ exact Hin | ].
  destruct (forged_token_is_hex_of_random_bytes
              (answering (mkResponse 403 [])) alice urls0 ship_call _ eq_refl Hin)
    as (rnd & _ & _ & _ & _ & _ & Hne).
  apply Hne. vm_compute. discriminate.
Defined.


(* ------------------------------------------------------------------ *)
(** ** Failures before and after the status check *)

(** X1: when the transport returns an error instead of a response, the
    case returns a failure whose cause is that error and whose diagnostic
    is the operation followed by the request-failed text; there is no
    body, so nothing is decoded and nothing is closed. *)
Theorem transport_error_is_returned E s u c req e :
  In (EvDo req (inr e)) (trace_of E s u c) ->
  outcome E s u c
  = Val (Some (mkFailure (Some e)
                 ("POST " ++ path_of c ++ ": リクエストに失敗しました"))) /\
  ~ In EvDecode (trace_of E s u c) /\
  count is_close (trace_of E s u c) = 0.
Proof.
  walk; intros Hin; pick Hin;
    (split; [ reflexivity | split; [ intros Hd; pick Hd | reflexivity ] ]).
Qed.

Lemma transport_error_is_returned_witness :
  In (EvDo login_request (inr (External "dial tcp: connection refused")))
     (trace_of unreachable alice urls0 login_call)
  /\
  outcome unreachable alice urls0 login_call
  = Val (Some (mkFailure (Some (External "dial tcp: connection refused"))
                 "POST /login: リクエストに失敗しました")).
Proof.
  assert (Hin : In (EvDo login_request (inr (External "dial tcp: connection refused")))
                   (trace_of unreachable alice urls0 login_call)).
  { vm_compute. do 2 right. left. reflexivity. }
  split; [ exact Hin | ].
  exact (proj1 (transport_error_is_returned _ _ _ _ _ _ Hin)).
Defined.

(** X2: when the request cannot be built, the case returns a failure
    whose cause is the construction error, with the request-failed
    diagnostic, and nothing is sent: the transport is never called. *)
Theorem unbuilt_request_is_not_sent E s u c p :
  In (EvNewRequest p false) (trace_of E s u c) ->
  exists e,
    new_request_error E (AppURL u) (path_of c) = Some e /\
    outcome E s u c
    = Val (Some (mkFailure (Some e)
                   ("POST " ++ path_of c ++ ": リクエストに失敗しました"))) /\
    sent (trace_of E s u c) = [] /\
    count is_close (trace_of E s u c) = 0.
Proof.
  walk; intros Hin; pick Hin; eexists; repeat split; eassumption.
Qed.

Lemma unbuilt_request_is_not_sent_witness :
  In (EvNewRequest "/sell" false) (trace_of unbuildable alice urls0 sell_call)
  /\
  exists e,
    new_request_error unbuildable (AppURL urls0) (path_of sell_call) = Some e /\
    outcome unbuildable alice urls0 sell_call
    = Val (Some (mkFailure (Some e)
                   ("POST " ++ path_of sell_call ++ ": リクエストに失敗しました"))) /\
    sent (trace_of unbuildable alice urls0 sell_call) = [] /\
    count is_close (trace_of unbuildable alice urls0 sell_call) = 0.
Proof.
  assert (Hin : In (EvNewRequest "/sell" false)
                   (trace_of unbuildable alice urls0 sell_call)).
  { vm_compute. right. left. reflexivity. }
  split; [ exact Hin | ].
  exact (unbuilt_request_is_not_sent _ _ _ _ _ Hin).
Defined.

(** X3: with the expected status, a body the decoder rejects makes every
    case, also one that does not look at the message, return a failure
    whose cause is the decoder's error and whose diagnostic is the
    operation followed by the decode-failed text; the body is still
    closed once. *)
Theorem decode_error_is_returned E s u c req res re e rest :
  In (EvDo req (inl res)) (trace_of E s u c) ->
  StatusCode res = expected_status c ->
  Decoder.Decode (Body res) (mkResErr "") = (re, Some e, rest) ->
  outcome E s u c
  = Val (Some (mkFailure (Some e)
                 ("POST " ++ path_of c ++ ": JSONデコードに失敗しました"))) /\
  st_unread (final E s u c) = rest /\
  count is_close (trace_of E s u c) = 1.
Proof.
  intros Hin Hs Hd; revert Hin.
  walk; intros Hin; pick Hin; status; try contradiction;
    same_decode; try discriminate;
    repeat split; reflexivity.
Qed.

Lemma decode_error_is_returned_witness :
  In (EvDo login_request (inl (mkResponse 401 ["<html>"; "</html>"])))
     (trace_of (answering (mkResponse 401 ["<html>"; "</html>"])) alice urls0
        login_call)
  /\
  Decoder.Decode ["<html>"; "</html>"] (mkResErr "")
  = (mkResErr "", Some SyntaxError, ["</html>"])
  /\
  outcome (answering (mkResponse 401 ["<html>"; "</html>"])) alice urls0 login_call
  = Val (Some (mkFailure (Some SyntaxError)
                 "POST /login: JSONデコードに失敗しました")).
Proof.
  assert (Hin : In (EvDo login_request (inl (mkResponse 401 ["<html>"; "</html>"])))
                   (trace_of (answering (mkResponse 401 ["<html>"; "</html>"]))
                      alice urls0 login_call)).
  { vm_compute. do 2 right. left. reflexivity. }
  assert (Hd : Decoder.Decode ["<html>"; "</html>"] (mkResErr "")
               = (mkResErr "", Some SyntaxError, ["</html>"])).
  { vm_compute. reflexivity. }
  split; [ exact Hin | ]. split; [ exact Hd | ].
  exact (proj1 (decode_error_is_returned _ _ _ login_call _ _ _ _ _
                  Hin eq_refl Hd)).
Defined.

(* ------------------------------------------------------------------ *)
(** ** When a case returns nil *)

(** X4: LoginWithWrongPassword, SellWithWrongCSRFToken,
    BuyWithWrongCSRFToken and ShipWithWrongCSRFToken (the cases that
    compare no message) return nil exactly when the response has the
    expected status and its body decodes without error, whatever message
    the body carries. *)
Theorem status_only_cases_nil_iff E s u c :
  message_oracle c = None ->
  (outcome E s u c = Val None
   <->
   exists req res re rest,
     In (EvDo req (inl res)) (trace_of E s u c) /\
     StatusCode res = expected_status c /\
     Decoder.Decode (Body res) (mkResErr "") = (re, None, rest)).
Proof.
  intros Hno; destruct c; try discriminate Hno; clear Hno;
    walk; status;
    (split;
     [ intros Hnil;
       first [ discriminate Hnil
             | do 4 eexists; split; [ member | ]; split; eassumption ]
     | intros (req & res & re & rest & Hin & Hs & Hd); pick Hin;
       try contradiction; same_decode; try discriminate; reflexivity ]).
Qed.

Lemma status_only_cases_nil_iff_witness :
  outcome (answering (mkResponse 401 [error_body "wrong password"])) alice urls0
    login_call = Val None.
Proof.
  apply (status_only_cases_nil_iff
           (answering (mkResponse 401 [error_body "wrong password"]))
           alice urls0 login_call eq_refl).
  exists login_request, (mkResponse 401 [error_body "wrong password"]),
    (mkResErr "wrong password"), [].
  split; [ vm_compute; do 2 right; left; reflexivity | ].
  split; vm_compute; reflexivity.
Defined.

(** X5: BuyWithFailed returns nil exactly when the response has the
    status the caller expects and its body decodes, without error, to
    the message the caller expects. *)
Theorem BuyWithFailed_nil_iff_expected E s u itemID token expectedStatus expectedMsg :
  outcome E s u (CallBuyWithFailed itemID token expectedStatus expectedMsg) = Val None
  <->
  exists req res rest,
    In (EvDo req (inl res))
       (trace_of E s u (CallBuyWithFailed itemID token expectedStatus expectedMsg)) /\
    StatusCode res = expectedStatus /\
    Decoder.Decode (Body res) (mkResErr "") = (mkResErr expectedMsg, None, rest).
Proof.
  walk; status; message; nil_iff_branch.
Qed.

Lemma BuyWithFailed_nil_iff_expected_witness :
  outcome (answering (mkResponse 403 [error_body "sold out"])) alice urls0
    (CallBuyWithFailed 7 "card" 403 "sold out") = Val None.
Proof.
  apply (BuyWithFailed_nil_iff_expected
           (answering (mkResponse 403 [error_body "sold out"]))
           alice urls0 7%Z "card" 403%Z "sold out").
  exists (mkRequest "POST" "http://127.0.0.1:8000" "/buy" "application/json"
            "0123456789abcdef"),
    (mkResponse 403 [error_body "sold out"]), [].
  split; [ vm_compute; do 2 right; left; reflexivity | ].
  split; vm_compute; reflexivity.
Defined.

(** X6: a failure without a cause is always a message mismatch: it comes
    only from SellWithWrongPrice, BuyWithFailed or ShipWithWrongSeller,
    after a response with the expected status whose body decoded without
    error to another message than the expected one.  Every other failure
    carries the error that caused it. *)
Theorem causeless_failure_is_message_mismatch E s u c f :
  outcome E s u c = Val (Some f) ->
  cause f = None ->
  exists expected diag req res re rest,
    message_oracle c = Some (expected, diag) /\
    message f = diag /\
    In (EvDo req (inl res)) (trace_of E s u c) /\
    StatusCode res = expected_status c /\
    Decoder.Decode (Body res) (mkResErr "") = (re, None, rest) /\
    Error re <> expected.
Proof.
  walk; status; message; intros Hout Hc; try discriminate Hout;
    injection Hout as <-; try discriminate Hc;
    (do 6 eexists; split; [ reflexivity | ]; split; [ reflexivity | ];
     split; [ member | ]; split; [ eassumption | ]; split; eassumption).
Qed.

Lemma causeless_failure_is_message_mismatch_witness :
  outcome (answering (mkResponse 400 [error_body "boom"])) alice urls0 sell_call
  = Val (Some (mkFailure None
                 "POST /sell: 商品価格は100円以上、1,000,000円以下しか出品できません"))
  /\
  exists expected diag req res re rest,
    message_oracle sell_call = Some (expected, diag) /\
    "POST /sell: 商品価格は100円以上、1,000,000円以下しか出品できません" = diag /\
    In (EvDo req (inl res))
       (trace_of (answering (mkResponse 400 [error_body "boom"])) alice urls0
          sell_call) /\
    StatusCode res = expected_status sell_call /\
    Decoder.Decode (Body res) (mkResErr "") = (re, None, rest) /\
    Error re <> expected.
Proof.
  assert (Hout : outcome (answering (mkResponse 400 [error_body "boom"])) alice
                   urls0 sell_call
                 = Val (Some (mkFailure None
                     "POST /sell: 商品価格は100円以上、1,000,000円以下しか出品できません"))).
  { vm_compute. reflexivity. }
  split; [ exact Hout | ].
  exact (causeless_failure_is_message_mismatch _ _ _ _ _ Hout eq_refl).
Defined.

(* ------------------------------------------------------------------ *)
(** ** What a case does, and in which order *)

(** X7: the four cases that forge a token read the random source exactly
    once, asking for 20 bytes, before they do anything else;
    LoginWithWrongPassword, SellWithWrongPrice and BuyWithFailed never
    read it. *)
Theorem random_source_use E s u c :
  (forges c = true ->
   exists ok tl,
     trace_of E s u c = EvRandRead 20 ok :: tl /\
     count is_rand_read tl = 0 /\
     st_rand_calls (final E s u c) = 1) /\
  (forges c = false ->
   count is_rand_read (trace_of E s u c) = 0 /\
   st_rand_calls (final E s u c) = 0).
Proof.
  walk; (split; intros Hf; try discriminate Hf);
    try (do 2 eexists); repeat split; reflexivity.
Qed.

(** X8: the steps of a case happen at most once each and in one order:
    random read, marshalling, request construction, sending, decoding,
    closing.  In particular nothing is sent before the token is drawn,
    and the body is never decoded after it was closed. *)
Theorem steps_in_order E s u c :
  ascending (trace_of E s u c) = true.
Proof.
  walk; reflexivity.
Qed.

(** X9: every request a case sends is a POST to [ShareTargetURLs.AppURL]
    with the path of its operation and the content type application/json,
    and its body is the encoding of the payload the case marshalled. *)
Theorem sent_requests E s u c req r :
  In (EvDo req r) (trace_of E s u c) ->
  req_Method req = "POST" /\
  req_URL req = AppURL u /\
  req_ContentType req = "application/json" /\
  req_Path req
  = match c with
    | CallLoginWithWrongPassword _ _ => "/login"
    | CallSellWithWrongCSRFToken _ _ _ _ | CallSellWithWrongPrice _ _ _ _ => "/sell"
    | CallBuyWithWrongCSRFToken _ _ | CallBuyWithFailed _ _ _ _ => "/buy"
    | CallShipWithWrongCSRFToken _ | CallShipWithWrongSeller _ => "/ship"
    end /\
  exists p, In (EvMarshal p) (trace_of E s u c) /\
            req_Body req = json_Marshal E p.
Proof.
  destruct c; walk; intros Hin; pick Hin;
    (repeat (split; [ reflexivity | ]); eexists; split; [ member | reflexivity ]).
Qed.

Lemma sent_requests_witness :
  In (EvDo sell_request (inl (mkResponse 400 [])))
     (trace_of (answering (mkResponse 400 [])) alice urls0 sell_call)
  /\
  req_Method sell_request = "POST" /\
  req_URL sell_request = AppURL urls0 /\
  req_ContentType sell_request = "application/json" /\
  req_Path sell_request = "/sell".
Proof.
  assert (Hin : In (EvDo sell_request (inl (mkResponse 400 [])))
                   (trace_of (answering (mkResponse 400 [])) alice urls0 sell_call)).
  { vm_compute. do 2 right. left. reflexivity. }
  split; [ exact Hin | ].
  destruct (sent_requests _ _ _ _ _ _ Hin) as (Hm & Hu & Ht & Hp & _).
  repeat split; assumption.
Defined.

(** X10: the payload a case marshals holds the caller's arguments as they
    were given; the only field the case fills in itself is the token. *)
Theorem payload_carries_arguments E s u c p :
  In (EvMarshal p) (trace_of E s u c) ->
  match c, p with
  | CallLoginWithWrongPassword a w, PLogin r =>
      login_AccountName r = a /\ login_Password r = w
  | CallSellWithWrongCSRFToken n pr d cat, PSell r
  | CallSellWithWrongPrice n pr d cat, PSell r =>
      sell_Name r = n /\ sell_Price r = pr /\
      sell_Description r = d /\ sell_CategoryID r = cat
  | CallBuyWithWrongCSRFToken i t, PBuy r
  | CallBuyWithFailed i t _ _, PBuy r =>
      buy_ItemID r = i /\ buy_Token r = t
  | CallShipWithWrongCSRFToken i, PShip r
  | CallShipWithWrongSeller i, PShip r => ship_ItemID r = i
  | _, _ => False
  end.
Proof.
  destruct c; walk; intros Hin; pick Hin; repeat split; reflexivity.
Qed.

Lemma payload_carries_arguments_witness :
  In (EvMarshal (PSell (mkReqSell "0123456789abcdef" "widget" 50 "desc" 1)))
     (trace_of (answering (mkResponse 400 [])) alice urls0 sell_call)
  /\
  (sell_Name (mkReqSell "0123456789abcdef" "widget" 50 "desc" 1) = "widget" /\
   sell_Price (mkReqSell "0123456789abcdef" "widget" 50 "desc" 1) = 50%Z /\
   sell_Description (mkReqSell "0123456789abcdef" "widget" 50 "desc" 1) = "desc" /\
   sell_CategoryID (mkReqSell "0123456789abcdef" "widget" 50 "desc" 1) = 1%Z).
Proof.
  assert (Hin : In (EvMarshal (PSell (mkReqSell "0123456789abcdef" "widget" 50
                                        "desc" 1)))
                   (trace_of (answering (mkResponse 400 [])) alice urls0 sell_call)).
  { vm_compute. left. reflexivity. }
  split; [ exact Hin | ].
  exact (payload_carries_arguments _ _ _ sell_call _ Hin).
Defined.


(* ------------------------------------------------------------------ *)
(** ** secureRandomStr *)

Lemma hex_pair_round_trip c :
  Bytes.is_hex (Bytes.hex_digit (Bytes.code c / 16))
  && Bytes.is_hex (Bytes.hex_digit (Bytes.code c mod 16)) = true /\
  Bytes.byte (Bytes.hex_val (Bytes.hex_digit (Bytes.code c / 16)) * 16
              + Bytes.hex_val (Bytes.hex_digit (Bytes.code c mod 16))) = c.
Proof.
  destruct c as [[] [] [] [] [] [] [] []]; split; vm_compute; reflexivity.
Qed.

Lemma hex_decode_encode k : hex_decode (hex_encode k) = Some k.
Proof.
  induction k as [ | c k IH]; unfold hex_encode; fold hex_encode;
    [ reflexivity | ].
  destruct (hex_pair_round_trip c) as [Hhex Hback].
  cbn [hex_decode]. rewrite Hhex, IH, Hback. reflexivity.
Qed.

(** X12: for every length [b], a call of secureRandomStr that returns
    yields 2b characters out of [0-9a-f]; it reads the random source once,
    for [b] bytes, and leaves the session, the target URLs and the
    response body as they were. *)
Theorem secureRandomStr_result b E st tok st' :
  secureRandomStr b E st = (Val tok, st') ->
  String.length tok = 2 * b /\
  all_bytes is_lower_hex tok = true /\
  st_session st' = st_session st /\
  st_urls st' = st_urls st /\
  st_unread st' = st_unread st /\
  st_rand_calls st' = S (st_rand_calls st) /\
  st_trace st' = (st_trace st ++ [EvRandRead b true])%list.
Proof.
  unfold secureRandomStr, crand_Read, bind, ret, panic.
  destruct (rand_source E (st_rand_calls st)) as [rnd | rerr]; intros H;
    [ | discriminate H ].
  injection H as <- <-.
  rewrite hex_encode_length, take_bytes_length.
  repeat split; try reflexivity. apply hex_encode_lower.
Qed.

Lemma secureRandomStr_result_witness :
  secureRandomStr 3 (answering (mkResponse 200 [])) (start alice urls0)
  = (Val "000000", emit (EvRandRead 3 true) (tick_rand (start alice urls0)))
  /\
  String.length "000000" = 2 * 3 /\
  all_bytes is_lower_hex "000000" = true.
Proof.
  assert (Hrun : secureRandomStr 3 (answering (mkResponse 200 [])) (start alice urls0)
                 = (Val "000000",
                    emit (EvRandRead 3 true) (tick_rand (start alice urls0)))).
  { vm_compute. reflexivity. }
  split; [ exact Hrun | ].
  destruct (secureRandomStr_result _ _ _ _ _ Hrun) as (Hlen & Hhex & _).
  split; assumption.
Defined.

(** X13: the token secureRandomStr returns determines the bytes it was
    made from: read back as hexadecimal it gives exactly the bytes the
    random source delivered, so two calls return the same token only
    when they drew the same bytes. *)
Theorem secureRandomStr_keeps_the_bytes b E1 st1 E2 st2 tok st1' st2' :
  secureRandomStr b E1 st1 = (Val tok, st1') ->
  secureRandomStr b E2 st2 = (Val tok, st2') ->
  exists rnd1 rnd2,
    rand_source E1 (st_rand_calls st1) = inl rnd1 /\
    rand_source E2 (st_rand_calls st2) = inl rnd2 /\
    hex_decode tok = Some (take_bytes rnd1 0 b) /\
    take_bytes rnd1 0 b = take_bytes rnd2 0 b.
Proof.
  unfold secureRandomStr, crand_Read, bind, ret, panic.
  destruct (rand_source E1 (st_rand_calls st1)) as [rnd1 | rerr1]; intros H1;
    [ | discriminate H1 ].
  destruct (rand_source E2 (st_rand_calls st2)) as [rnd2 | rerr2]; intros H2;
    [ | discriminate H2 ].
  injection H1 as <- _. injection H2 as H2 _.
  exists rnd1, rnd2. repeat split.
  - apply hex_decode_encode.
  - apply (f_equal hex_decode) in H2.
    rewrite !hex_decode_encode in H2. injection H2 as H2. symmetry. exact H2.
Qed.

Lemma secureRandomStr_keeps_the_bytes_witness :
  secureRandomStr 2 (answering (mkResponse 200 [])) (start alice urls0)
  = (Val "0000", emit (EvRandRead 2 true) (tick_rand (start alice urls0)))
  /\
  hex_decode "0000" = Some (String (Bytes.byte 0) (String (Bytes.byte 0) "")).
Proof.
  assert (Hrun : secureRandomStr 2 (answering (mkResponse 200 [])) (start alice urls0)
                 = (Val "0000",
                    emit (EvRandRead 2 true) (tick_rand (start alice urls0)))).
  { vm_compute. reflexivity. }
  split; [ exact Hrun | ].
  destruct (secureRandomStr_keeps_the_bytes _ _ _ _ _ _ _ _ Hrun Hrun)
    as (rnd1 & rnd2 & H1 & _ & Hdec & _).
  injection H1 as <-. exact Hdec.
Defined.

(* ------------------------------------------------------------------ *)
(** ** The error envelope *)

Lemma safe_byte_tests c :
  safe_byte c = true ->
  (Bytes.code c =? 34)%N = false /\ (Bytes.code c =? 92)%N = false /\
  (Bytes.code c <? 32)%N = false.
Proof.
  unfold safe_byte. intros H.
  apply andb_true_iff in H as [H H92]. apply andb_true_iff in H as [H32 H34].
  apply negb_true_iff in H92, H34. apply N.leb_le in H32.
  repeat split; try assumption. apply N.ltb_ge. exact H32.
Qed.

(** A run of safe bytes up to a quote is scanned as it stands. *)
Lemma scan_string_safe m rest :
  all_bytes safe_byte m = true ->
  Json.scan_string (m ++ String (Bytes.byte 34) rest) = Json.Done m rest.
Proof.
  induction m as [ | c m IH]; intros Hsafe.
  - reflexivity.
  - cbn [all_bytes] in Hsafe. apply andb_true_iff in Hsafe as [Hc Hm].
    destruct (safe_byte_tests c Hc) as (H34 & H92 & H32).
    change (String c m ++ String (Bytes.byte 34) rest)
      with (String c (m ++ String (Bytes.byte 34) rest)).
    cbn [Json.scan_string]. rewrite H34, H92, H32, (IH Hm). reflexivity.
Qed.

Lemma unquote_idle_copy s :
  Json.unquote_from Json.Idle s = Json.unquote_from (Json.Copy 0) s.
Proof. destruct s; reflexivity. Qed.

(** Safe, well-formed bytes are their own unquoting. *)
Lemma unquote_safe s :
  forall k, all_bytes safe_byte s = true -> well_formed k s = true ->
            Json.unquote_from (Json.Copy k) s = s.
Proof.
  induction s as [ | c r IH]; intros k Hsafe Hwf; [ reflexivity | ].
  cbn [all_bytes] in Hsafe. apply andb_true_iff in Hsafe as [Hc Hr].
  destruct (safe_byte_tests c Hc) as (_ & H92 & _).
  destruct k as [ | k].
  - cbn [well_formed] in Hwf. cbn [Json.unquote_from]. rewrite H92.
    destruct (Bytes.code c <? 128)%N.
    + rewrite unquote_idle_copy, (IH 0 Hr Hwf). reflexivity.
    + destruct (Utf8.seq_len (String c r)) as [ | n]; [ discriminate Hwf | ].
      rewrite (IH n Hr Hwf). reflexivity.
  - cbn [well_formed] in Hwf. cbn [Json.unquote_from].
    rewrite (IH k Hr Hwf). reflexivity.
Qed.

Lemma unquote_plain m : plain m = true -> Json.unquote m = m.
Proof.
  unfold plain, Json.unquote. intros H. apply andb_true_iff in H as [Hs Hw].
  rewrite unquote_idle_copy. apply unquote_safe; assumption.
Qed.

Lemma parse_error_body m :
  plain m = true ->
  Json.parse_value (Decoder.fuel_for (error_body m)) 0 (error_body m)
  = Json.Parsed (Json.Done (Json.Object [("error", Json.Str m)]) "").
Proof.
  intros Hp.
  assert (Hs : all_bytes safe_byte m = true)
    by (unfold plain in Hp; apply andb_true_iff in Hp; tauto).
  assert (Hf : exists f, Decoder.fuel_for (error_body m) = S (S (S f))).
  { exists (2 * String.length (error_body m) - 1). unfold Decoder.fuel_for.
    assert (1 <= String.length (error_body m)) by (cbv; lia). lia. }
  destruct Hf as [f Hf]. rewrite Hf.
  change (error_body m)
    with (String "{" (String (Bytes.byte 34) (String "e" (String "r" (String "r"
            (String "o" (String "r" (String (Bytes.byte 34) (String ":"
              (String (Bytes.byte 34) (m ++ String (Bytes.byte 34) "}"))))))))))).
  assert (Hkey : forall tail,
             Json.scan_string
               (String "e" (String "r" (String "r" (String "o" (String "r"
                  (String (Bytes.byte 34) tail))))))
             = Json.Done "error" tail)
    by (intros tail; exact (scan_string_safe "error" tail eq_refl)).
  pose proof (scan_string_safe m "}" Hs) as Hval.
  cbn -[Json.scan_string String.append] in Hkey, Hval.
  cbn -[Json.scan_string Json.unquote String.append].
  rewrite Hkey.
  cbn -[Json.scan_string Json.unquote String.append].
  rewrite Hval.
  cbn -[Json.scan_string Json.unquote String.append].
  rewrite (unquote_plain m Hp). reflexivity.
Qed.

(** Once the buffer holds a whole value nothing more is read. *)
Lemma readValue_ready buf unread r :
  Decoder.ready buf = Some r -> Decoder.readValue buf unread = (r, unread).
Proof.
  intros H. destruct unread; cbn [Decoder.readValue]; rewrite H; reflexivity.
Qed.

Lemma Decode_error_body m tail re :
  plain m = true ->
  Decoder.Decode (error_body m :: tail) re = (mkResErr m, None, tail).
Proof.
  intros Hp. unfold Decoder.Decode.
  cbn [Decoder.readValue].
  change (Decoder.ready "") with (@None (Json.value + goError)).
  change ("" ++ error_body m) with (error_body m).
  cbv iota.
  rewrite (readValue_ready (error_body m) tail
             (inl (Json.Object [("error", Json.Str m)]))).
  - reflexivity.
  - unfold Decoder.ready. rewrite (parse_error_body m Hp). reflexivity.
Qed.

(** X14: a response with the expected status whose body starts with the
    envelope [{"error":"m"}], for a message [m] that needs no escaping,
    decodes to exactly [m], whatever arrives after the envelope in later
    reads, which stays unread; the cases that compare no message then
    return nil, and SellWithWrongPrice, BuyWithFailed and
    ShipWithWrongSeller return nil exactly when [m] is the message they
    expect. *)
Theorem envelope_is_read_back E s u c req res m tail :
  In (EvDo req (inl res)) (trace_of E s u c) ->
  StatusCode res = expected_status c ->
  Body res = error_body m :: tail ->
  plain m = true ->
  Decoder.Decode (Body res) (mkResErr "") = (mkResErr m, None, tail) /\
  st_unread (final E s u c) = tail /\
  match message_oracle c with
  | Some (expected, _) => outcome E s u c = Val None <-> m = expected
  | None => outcome E s u c = Val None
  end.
Proof.
  intros Hin Hs Hb Hp.
  assert (Hd : Decoder.Decode (Body res) (mkResErr "") = (mkResErr m, None, tail))
    by (rewrite Hb; apply Decode_error_body; exact Hp).
  split; [ exact Hd | ].
  clear Hb Hp. revert Hin.
  walk; intros Hin; pick Hin; status; try contradiction;
    same_decode; try discriminate; message; simpl in *;
    (split; [ reflexivity | ]);
    first [ reflexivity
          | split; intros; first [ congruence | discriminate | reflexivity ] ].
Qed.

Lemma envelope_is_read_back_witness :
  In (EvDo sell_request (inl (mkResponse 400 [error_body ItemPriceErrMsg])))
     (trace_of (answering (mkResponse 400 [error_body ItemPriceErrMsg])) alice
        urls0 sell_call)
  /\
  plain ItemPriceErrMsg = true
  /\
  Decoder.Decode [error_body ItemPriceErrMsg] (mkResErr "")
  = (mkResErr ItemPriceErrMsg, None, [])
  /\
  (outcome (answering (mkResponse 400 [error_body ItemPriceErrMsg])) alice urls0
     sell_call = Val None
   <-> ItemPriceErrMsg = ItemPriceErrMsg).
Proof.
  assert (Hin : In (EvDo sell_request
                      (inl (mkResponse 400 [error_body ItemPriceErrMsg])))
                   (trace_of (answering (mkResponse 400 [error_body ItemPriceErrMsg]))
                      alice urls0 sell_call)).
  { vm_compute. do 2 right. left. reflexivity. }
  assert (Hp : plain ItemPriceErrMsg = true).
  { vm_compute. reflexivity. }
  split; [ exact Hin | ]. split; [ exact Hp | ].
  destruct (envelope_is_read_back _ _ _ sell_call _ _ _ _ Hin eq_refl eq_refl Hp)
    as (Hd & _ & Hnil).
  split; assumption.
Defined.

(* ------------------------------------------------------------------ *)
(** ** An empty body *)

Lemma all_bytes_app p a b :
  all_bytes p a = true -> all_bytes p b = true -> all_bytes p (a ++ b) = true.
Proof.
  induction a as [ | c a IH]; intros Ha Hb; [ exact Hb | ].
  cbn [all_bytes] in Ha. apply andb_true_iff in Ha as [Hc Ha].
  change (String c a ++ b) with (String c (a ++ b)).
  cbn [all_bytes]. rewrite Hc, (IH Ha Hb). reflexivity.
Qed.

Lemma skip_ws_blank s :
  all_bytes Bytes.is_space s = true -> Bytes.skip_ws s = "".
Proof.
  induction s as [ | c s IH]; intros H; [ reflexivity | ].
  cbn [all_bytes] in H. apply andb_true_iff in H as [Hc Hs].
  cbn [Bytes.skip_ws]. rewrite Hc. exact (IH Hs).
Qed.

Lemma parse_blank s :
  all_bytes Bytes.is_space s = true ->
  Json.parse_value (Decoder.fuel_for s) 0 s = Json.Parsed Json.More.
Proof.
  intros H. unfold Decoder.fuel_for.
  replace (2 * String.length s + 2) with (S (2 * String.length s + 1)) by lia.
  cbn [Json.parse_value]. rewrite (skip_ws_blank s H). reflexivity.
Qed.

Lemma readValue_blank body :
  forall buf, all_bytes Bytes.is_space buf = true -> blank body = true ->
              Decoder.readValue buf body = (inr EOF, []).
Proof.
  induction body as [ | c cs IH]; intros buf Hbuf Hbody;
    cbn [Decoder.readValue]; unfold Decoder.ready; rewrite (parse_blank buf Hbuf).
  - unfold Decoder.at_eof. rewrite (parse_blank buf Hbuf), (skip_ws_blank buf Hbuf).
    reflexivity.
  - unfold blank in Hbody. cbn [forallb] in Hbody.
    apply andb_true_iff in Hbody as [Hc Hcs].
    apply IH; [ apply all_bytes_app; assumption | exact Hcs ].
Qed.

(** X15: a response with the expected status but a body that is empty,
    or holds white space only, fails every case, also the ones that
    compare no message: the decoder reports EOF and the case returns the
    decode failure with that cause. *)
Theorem blank_body_is_a_decode_failure E s u c req res :
  In (EvDo req (inl res)) (trace_of E s u c) ->
  StatusCode res = expected_status c ->
  blank (Body res) = true ->
  outcome E s u c
  = Val (Some (mkFailure (Some EOF)
                 ("POST " ++ path_of c ++ ": JSONデコードに失敗しました"))).
Proof.
  intros Hin Hs Hb.
  assert (Hd : Decoder.Decode (Body res) (mkResErr "") = (mkResErr "", Some EOF, []))
    by (unfold Decoder.Decode; rewrite (readValue_blank _ "" eq_refl Hb);
        reflexivity).
  clear Hb. revert Hin.
  walk; intros Hin; pick Hin; status; try contradiction;
    same_decode; try discriminate; reflexivity.
Qed.

Lemma blank_body_is_a_decode_failure_witness :
  In (EvDo login_request (inl (mkResponse 401 [])))
     (trace_of (answering (mkResponse 401 [])) alice urls0 login_call)
  /\
  outcome (answering (mkResponse 401 [])) alice urls0 login_call
  = Val (Some (mkFailure (Some EOF) "POST /login: JSONデコードに失敗しました")).
Proof.
  assert (Hin : In (EvDo login_request (inl (mkResponse 401 [])))
                   (trace_of (answering (mkResponse 401 [])) alice urls0 login_call)).
  { vm_compute. do 2 right. left. reflexivity. }
  split; [ exact Hin | ].
  exact (blank_body_is_a_decode_failure _ _ _ login_call _ _ Hin eq_refl eq_refl).
Defined.
